(** * The partition service of openedx.core.lib.partitions

  A shallow embedding of [partitions_service.py]: the lookup of a course's
  user partitions (static ones plus the dynamically created enrollment-track
  partition) and the [PartitionService] that resolves, and caches, the group
  of a user inside a partition.

  Python values that may be [None] are [option]s; a Python list of such
  values is a [list (option _)].  Texts are unicode texts, a character outside
  the ASCII range being carried by a byte above 127; byte-string templates
  are Python 2 [str]s.  Exceptions are values of [exn]; the code
  of the service runs in a state-and-exception monad [M] over the [World]:
  the service object (with the cache it refers to), the persisted
  assignments owned by the schemes, the sequence of scheme invocations and
  the warnings sent to the logger. *)

From Stdlib Require Import ZArith Ascii.
From stdpp Require Import base option list strings pretty gmap.

Open Scope Z_scope.

(** ** Data model *)

(** [Group]: a named tuple [(id, name)]; as a non-empty tuple it is always
  truthy. *)
Module Group.
Record t : Type := mk { id : Z; name : string }.
End Group.

(** The user handed to the service; only [user.id] is read here. *)
Module User.
Record t : Type := mk { id : Z; username : string }.
End User.

(** [UserPartition]: the scheme is an object of the pluggable scheme
  interface, kept abstract. *)
Module UserPartition.
Record t (Scheme : Type) : Type := mk {
  id : Z;
  name : string;
  description : string;
  groups : list Group.t;
  scheme : Scheme;
  parameters : gmap string string
}.
Arguments mk {Scheme} _ _ _ _ _ _.
Arguments id {Scheme} _.
Arguments name {Scheme} _.
Arguments description {Scheme} _.
Arguments groups {Scheme} _.
Arguments scheme {Scheme} _.
Arguments parameters {Scheme} _.
End UserPartition.

(** Exceptions that the modelled code raises or catches. *)
Inductive exn : Type :=
| ValueError (msg : string)
| AttributeError (msg : string)
| KeyError (key : string)
| TypeError (msg : string)
| UserPartitionError (msg : string)
| UnicodeEncodeError (object : string).

Inductive result (A : Type) : Type :=
| Return (a : A)
| Raise (e : exn).
Arguments Return {A} a.
Arguments Raise {A} e.

(** The collaborators of the module that live outside of it: course keys
  (opaque_keys), translation (django), the scheme objects with their
  [get_group_for_user], the store in which schemes persist assignments, the
  tracking functions and the registry of scheme plugins. *)
Class Collaborators : Type := {
  CourseKey : Type;
  for_branch : CourseKey → option string → CourseKey;
  unicode : CourseKey → string;
  ugettext : string → string;
  Scheme : Type;
  Store : Type;
  TrackFn : Type;
  get_group_for_user :
    Scheme → CourseKey → User.t → UserPartition.t Scheme → bool →
    option TrackFn → Store → option Group.t * Store;
  scheme_registry : gmap string Scheme
}.

Section partitions_service.
Context `{Collaborators}.

Abbreviation Partition := (UserPartition.t Scheme).
Abbreviation Cache := (gmap string (option Z)).

(** A course: [course.user_partitions], its statically configured
    partitions, and [course.id], its key. *)
Record Course : Type := mkCourse {
  user_partitions : list Partition;
  course_key : CourseKey
}.

(** The service object.  [get_course] is the abstract method that a
    subclass must supply; [_cache] is [None] or the mapping supplied by the
    caller, whose entries are group ids or [None]. *)
Record PartitionService : Type := mkService {
  _user : User.t;
  _course_id : CourseKey;
  _track_function : option TrackFn;
  _cache : option Cache;
  get_course : Course
}.

(** One invocation of [scheme.get_group_for_user]. *)
Record SchemeCall : Type := mkCall {
  call_scheme : Scheme;
  call_course_id : CourseKey;
  call_user : User.t;
  call_partition : Partition;
  call_assign : bool;
  call_track_function : option TrackFn
}.

Record World : Type := mkWorld {
  self : PartitionService;
  store : Store;
  trace : list SchemeCall;
  warnings : list string
}.

(** ** The monad *)

Definition M (A : Type) : Type := World → result A * World.

Definition ret {A} (a : A) : M A := λ w, (Return a, w).
Definition raise {A} (e : exn) : M A := λ w, (Raise e, w).
Definition bind {A B} (m : M A) (k : A → M B) : M B :=
  λ w, match m w with
       | (Return a, w') => k a w'
       | (Raise e, w') => (Raise e, w')
       end.
Definition lift {A} (r : result A) : M A := λ w, (r, w).

#[export] Instance M_ret : MRet M := @ret.
#[export] Instance M_bind : MBind M := λ A B k m, bind m k.

Definition get_self : M PartitionService := λ w, (Return (self w), w).

Definition log_warning (msg : string) : M unit :=
  λ w, (Return tt, mkWorld (self w) (store w) (trace w) (warnings w ++ [msg])).

(** The service object with the contents of its cache replaced. *)
Definition with_cache (s : PartitionService) (c : option Cache)
    : PartitionService :=
  mkService (_user s) (_course_id s) (_track_function s) c (get_course s).

(** [self._cache[key] = v], on a cache that is not [None]. *)
Definition cache_setitem (key : string) (v : option Z) : M unit :=
  λ w, let s := self w in
       (Return tt,
        mkWorld (with_cache s (insert key v <$> _cache s))
                (store w) (trace w) (warnings w)).

(** Truthiness of a mapping: non-empty. *)
Definition dict_truthy (d : Cache) : bool := bool_decide (d ≠ ∅).
(** [key in d]. *)
Definition dict_contains (key : string) (d : Cache) : bool :=
  bool_decide (is_Some (d !! key)).
(** [d[key]]. *)
Definition dict_getitem (key : string) (d : Cache) : result (option Z) :=
  match d !! key with
  | Some v => Return v
  | None => Raise (KeyError key)
  end.

(** ** Partition lookup *)

Definition ENROLLMENT_TRACK_PARTITION_ID : Z := 50.

(** Modelled from the spec: [UserPartition.get_scheme] of partitions.py, the
    scheme registry: lookup by name, failing with the domain-specific
    [UserPartitionError] if no scheme of that name is registered. *)
Definition get_scheme (name : string) : result Scheme :=
  match scheme_registry !! name with
  | Some s => Return s
  | None => Raise (UserPartitionError ("Unrecognized scheme '" +:+ name +:+ "'"))
  end.

(** Modelled from the spec: [create_user_partition] of the enrollment-track
    scheme, which constructs and returns a new partition from the id, name,
    description and parameters it is given, with no groups of its own and
    the scheme itself as its scheme. *)
Definition create_user_partition (sch : Scheme) (id : Z)
    (name description : string) (parameters : gmap string string) : Partition :=
  UserPartition.mk id name description [] sch parameters.

(** [obj.id] and [obj.name] on a value that may be [None]. *)
Definition attr_id (o : option Partition) : result Z :=
  match o with
  | Some p => Return (UserPartition.id p)
  | None => Raise (AttributeError "'NoneType' object has no attribute 'id'")
  end.
Definition attr_name (o : option Partition) : result string :=
  match o with
  | Some p => Return (UserPartition.name p)
  | None => Raise (AttributeError "'NoneType' object has no attribute 'name'")
  end.

(** A character of the ASCII range, and a text made of such characters only. *)
Definition is_ascii_char (c : ascii) : bool :=
  match c with
  | Ascii _ _ _ _ _ _ _ b7 => negb b7
  end.

Fixpoint is_ascii_text (s : string) : bool :=
  match s with
  | EmptyString => true
  | String c s' => is_ascii_char c && is_ascii_text s'
  end.

(** A unicode argument of [str.format] on a byte-string template: it is
    encoded with the ascii codec, which raises on the first character that
    is outside the ASCII range. *)
Definition format_arg (u : string) : result string :=
  if is_ascii_text u then Return u else Raise (UnicodeEncodeError u).

(** The [for] loop over the list: the first element whose id matches, or
    [None] when the loop runs to its end. *)
Fixpoint _get_partition_from_id (partitions : list (option Partition))
    (user_partition_id : Z) : result (option Partition) :=
  match partitions with
  | [] => Return None
  | partition :: rest =>
      match attr_id partition with
      | Return i =>
          if bool_decide (i = user_partition_id) then Return partition
          else _get_partition_from_id rest user_partition_id
      | Raise e => Raise e
      end
  end.

Definition _create_enrollment_track_partition (course : Course)
    : M (option Partition) :=
  match get_scheme "enrollment_track" with
  | Raise (UserPartitionError _) =>
      log_warning "No 'enrollment_track' scheme registered, EnrollmentTrackUserPartition will not be created.";;
      ret None
  | Raise e => raise e
  | Return enrollment_track_scheme =>
      let used_ids : gset Z :=
        list_to_set (UserPartition.id <$> user_partitions course) in
      if bool_decide (ENROLLMENT_TRACK_PARTITION_ID ∈ used_ids) then
        p ← lift (_get_partition_from_id (Some <$> user_partitions course)
                    ENROLLMENT_TRACK_PARTITION_ID);
        partition_name ← lift (attr_name p);
        partition_text ← lift (format_arg partition_name);
        log_warning ("Cannot add 'enrollment_track' partition, as ID "
                     +:+ pretty ENROLLMENT_TRACK_PARTITION_ID
                     +:+ " is assigned to " +:+ partition_text);;
        ret None
      else
        let course_id := unicode (for_branch (course_key course) None) in
        let partition :=
          create_user_partition enrollment_track_scheme
            ENROLLMENT_TRACK_PARTITION_ID
            (ugettext "Enrollment Track Partition")
            (ugettext "Partition for segmenting users by enrollment track")
            {[ "course_id" := course_id ]} in
        ret (Some partition)
  end.

Definition _get_dynamic_partitions (course : Course)
    : M (list (option Partition)) :=
  p ← _create_enrollment_track_partition course;
  ret [p].

Definition get_course_user_partitions (course : Course)
    : M (list (option Partition)) :=
  dynamic ← _get_dynamic_partitions course;
  ret ((Some <$> user_partitions course) ++ dynamic).

(** ** The service *)

Definition course_partitions : M (list (option Partition)) :=
  s ← get_self;
  get_course_user_partitions (get_course s).

Definition _get_user_partition (user_partition_id : Z)
    : M (option Partition) :=
  partitions ← course_partitions;
  lift (_get_partition_from_id partitions user_partition_id).

Definition get_group (user_partition : Partition) (assign : bool)
    : M (option Group.t) :=
  λ w, let s := self w in
       let '(group, store') :=
         get_group_for_user (UserPartition.scheme user_partition)
           (_course_id s) (_user s) user_partition assign
           (_track_function s) (store w) in
       (Return group,
        mkWorld s store'
          (trace w ++ [mkCall (UserPartition.scheme user_partition)
                         (_course_id s) (_user s) user_partition assign
                         (_track_function s)])
          (warnings w)).

Definition cache_key (s : PartitionService) (user_partition_id : Z) : string :=
  "PartitionService.ugidfp." +:+ pretty (User.id (_user s)) +:+ "."
    +:+ unicode (_course_id s) +:+ "." +:+ pretty user_partition_id.

(** [self._cache and (cache_key in self._cache)]. *)
Definition cache_hit (s : PartitionService) (key : string) : bool :=
  match _cache s with
  | Some d => dict_truthy d && dict_contains key d
  | None => false
  end.

(** [self._cache[cache_key]]. *)
Definition cache_getitem (s : PartitionService) (key : string)
    : result (option Z) :=
  match _cache s with
  | Some d => dict_getitem key d
  | None => Raise (TypeError "'NoneType' object has no attribute '__getitem__'")
  end.

Definition get_user_group_id_for_partition (user_partition_id : Z)
    : M (option Z) :=
  s ← get_self;
  let key := cache_key s user_partition_id in
  if cache_hit s key then lift (cache_getitem s key)
  else
    user_partition ← _get_user_partition user_partition_id;
    match user_partition with
    | None =>
        raise (ValueError ("Configuration problem!  No user_partition with id "
                           +:+ pretty user_partition_id +:+ " in course "
                           +:+ unicode (_course_id s)))
    | Some user_partition =>
        group ← get_group user_partition true;
        let group_id := Group.id <$> group in
        (if bool_decide (_cache s ≠ None) then cache_setitem key group_id
         else ret tt);;
        ret group_id
    end.

(** ** Vocabulary of the statements *)

(** Ids of the partitions that a combined list holds. *)
Definition partition_ids (l : list (option Partition)) : list Z :=
  UserPartition.id <$> omap (λ o, o) l.

Definition static_ids (course : Course) : list Z :=
  UserPartition.id <$> user_partitions course.

(** A static partition of the course uses the reserved id. *)
Definition reserved_id_used (course : Course) : Prop :=
  ENROLLMENT_TRACK_PARTITION_ID ∈ static_ids course.

(** The world differs from [w] at most in the warnings logged. *)
Definition only_logged (w w' : World) : Prop :=
  self w' = self w ∧ store w' = store w ∧ trace w' = trace w ∧
  ∃ msgs, warnings w' = warnings w ++ msgs.

(** The partition that the code synthesizes for a course. *)
Definition enrollment_track_partition (sch : Scheme) (course : Course)
    : Partition :=
  UserPartition.mk 50 (ugettext "Enrollment Track Partition")
    (ugettext "Partition for segmenting users by enrollment track")
    [] sch {[ "course_id" := unicode (for_branch (course_key course) None) ]}.

(** The first partition of a list that has a given id, if any. *)
Definition first_with_id (l : list Partition) (pid : Z) : option Partition :=
  head (filter (λ p, UserPartition.id p = pid) l).

(** What the creation of the enrollment-track partition comes to for a
    course: a partition, [None], or the exception of the warning's
    formatting. *)
Definition creation_outcome (course : Course) : result (option Partition) :=
  match scheme_registry !! "enrollment_track" with
  | None => Return None
  | Some sch =>
      match first_with_id (user_partitions course) 50 with
      | None => Return (Some (enrollment_track_partition sch course))
      | Some p =>
          if is_ascii_text (UserPartition.name p) then Return None
          else Raise (UnicodeEncodeError (UserPartition.name p))
      end
  end.

(** What the combined list of a course comes to. *)
Definition combined_result (course : Course)
    : result (list (option Partition)) :=
  match creation_outcome course with
  | Return d => Return ((Some <$> user_partitions course) ++ [d])
  | Raise e => Raise e
  end.

(** The world [w'] is [w] with the warnings [msgs] logged. *)
Definition logged (msgs : list string) (w w' : World) : Prop :=
  self w' = self w ∧ store w' = store w ∧ trace w' = trace w ∧
  warnings w' = warnings w ++ msgs.

(** The invocation that [get_group] makes for a partition. *)
Definition call_of (s : PartitionService) (p : Partition) (assign : bool)
    : SchemeCall :=
  mkCall (UserPartition.scheme p) (_course_id s) (_user s) p assign
    (_track_function s).

(** What the scheme answers to that invocation on a given store. *)
Definition scheme_answer (s : PartitionService) (p : Partition)
    (assign : bool) (st : Store) : option Group.t * Store :=
  get_group_for_user (UserPartition.scheme p) (_course_id s) (_user s) p
    assign (_track_function s) st.

(** What the lookup of a partition id in the combined list of a course
    comes to. *)
Definition resolution (course : Course) (pid : Z) : result (option Partition) :=
  match combined_result course with
  | Return combined => _get_partition_from_id combined pid
  | Raise e => Raise e
  end.

(** The scheme is registered and the first static partition with id 50 has
    a name outside ASCII: the warning about it cannot be formatted. *)
Definition conflict_unencodable (course : Course) : Prop :=
  is_Some (scheme_registry !! "enrollment_track") ∧
  ∃ p, first_with_id (user_partitions course) 50 = Some p ∧
       is_ascii_text (UserPartition.name p) = false.


(** A string without the separator of the cache key. *)
Fixpoint dot_free (s : string) : Prop :=
  match s with
  | EmptyString => True
  | String c s' => c ≠ "."%char ∧ dot_free s'
  end.

(** The service fields that no method assigns after [__init__]. *)
Definition same_identity (s s' : PartitionService) : Prop :=
  _user s' = _user s ∧ _course_id s' = _course_id s ∧
  _track_function s' = _track_function s ∧ get_course s' = get_course s.

End partitions_service.

(** ** A concrete runtime

    Course keys with an optional branch, no translation in force, two
    schemes, and a store that maps (user id, partition id) to the id of the
    assigned group.  Both schemes return the persisted group when it still
    exists; otherwise they assign the partition's first group when [assign]
    is set and return [None], persisting nothing, when it is not. *)
Module Sample.

Record Key : Type := mkKey { locator : string; branch : option string }.

Definition key_for_branch (k : Key) (b : option string) : Key :=
  mkKey (locator k) b.

Definition key_unicode (k : Key) : string :=
  match branch k with
  | Some b => locator k +:+ "+branch@" +:+ b
  | None => locator k
  end.

Inductive scheme : Type := RandomScheme | EnrollmentTrackScheme.

Definition assignments : Type := gmap (Z * Z) Z.

Definition find_group (gid : Z) (gs : list Group.t) : option Group.t :=
  head (filter (λ g, Group.id g = gid) gs).

Definition sample_get_group (sch : scheme) (cid : Key) (u : User.t)
    (p : UserPartition.t scheme) (assign : bool) (tf : option unit)
    (st : assignments) : option Group.t * assignments :=
  let slot := (User.id u, UserPartition.id p) in
  match st !! slot ≫= λ gid, find_group gid (UserPartition.groups p) with
  | Some g => (Some g, st)
  | None =>
      if assign then
        match UserPartition.groups p with
        | g :: _ => (Some g, <[slot := Group.id g]> st)
        | [] => (None, st)
        end
      else (None, st)
  end.

Definition runtime (registry : gmap string scheme) : Collaborators := {|
  CourseKey := Key;
  for_branch := key_for_branch;
  unicode := key_unicode;
  ugettext := λ s, s;
  Scheme := scheme;
  Store := assignments;
  TrackFn := unit;
  get_group_for_user := sample_get_group;
  scheme_registry := registry
|}.



(** All plugins registered, and the enrollment-track plugin missing. *)
Definition full : Collaborators :=
  runtime {[ "random" := RandomScheme; "enrollment_track" := EnrollmentTrackScheme ]}.
Definition bare : Collaborators :=
  runtime {[ "random" := RandomScheme ]}.

Definition alice : User.t := User.mk 7 "alice".
Definition key : Key := mkKey "course-v1:edX+DemoX+2017" (Some "draft").

Definition ab_test : UserPartition.t scheme :=
  UserPartition.mk 1 "A/B test" "Two arms" [Group.mk 10 "A"; Group.mk 11 "B"]
    RandomScheme ∅.

Definition squatter : UserPartition.t scheme :=
  UserPartition.mk 50 "Cohorts" "Uses the reserved id" [Group.mk 20 "C"]
    RandomScheme ∅.

(** A partition on the reserved id whose name is not ASCII. *)
Definition equipes : UserPartition.t scheme :=
  UserPartition.mk 50 "Équipes" "Uses the reserved id" [Group.mk 30 "E"]
    RandomScheme ∅.

Definition course_plain (R := full) : Course := mkCourse [ab_test] key.
Definition course_equipes (R := full) : Course := mkCourse [ab_test; equipes] key.
Definition course_clash (R := full) : Course := mkCourse [ab_test; squatter] key.
Definition course_bare (R := bare) : Course := mkCourse [ab_test] key.
Definition course_empty (R := bare) : Course := mkCourse [] key.

Definition world (R : Collaborators) (course : @Course R)
    (u : User.t) (cid : @CourseKey R) (cache : option (gmap string (option Z)))
    (st : @Store R) : @World R :=
  mkWorld (mkService u cid None cache course) st [] [].

(** The partition synthesized for [course_plain]. *)
Definition track_partition : UserPartition.t scheme :=
  @enrollment_track_partition full EnrollmentTrackScheme course_plain.

Definition combined_plain : list (option (UserPartition.t (@Scheme full))) :=
  [Some ab_test; Some track_partition].
Definition combined_bare : list (option (UserPartition.t (@Scheme bare))) :=
  [Some ab_test; None].

(** Worlds: no cache; an empty cache; a cache with an unrelated entry; and,
    on the runtime without the enrollment-track plugin, a cache that holds
    the key of partition 9, an id that no partition of the course has. *)
Definition w_none : @World full := world full course_plain alice key None ∅.
Definition w_empty : @World full :=
  world full course_plain alice key (Some ∅) ∅.
Definition w_other : @World full :=
  world full course_plain alice key (Some {[ "unrelated" := None ]}) ∅.
Definition w_clash : @World full := world full course_clash alice key None ∅.
Definition w_equipes : @World full :=
  world full course_equipes alice key None ∅.
Definition w_bare : @World bare := world bare course_bare alice key None ∅.
Definition w_bare_empty : @World bare :=
  world bare course_empty alice key None ∅.
Definition key9 : string :=
  "PartitionService.ugidfp.7.course-v1:edX+DemoX+2017+branch@draft.9".
Definition w_cached : @World bare :=
  world bare course_bare alice key (Some {[ key9 := Some 11 ]}) ∅.

End Sample.

(** * Properties *)

(** Unfolding of the monad's operations. *)
Ltac run := unfold mbind, M_bind, bind, ret, raise, lift, get_self, log_warning.

Section properties.
Context `{Collaborators}.

Implicit Types (course : Course) (w : World) (pid : Z).
Implicit Types (p q : UserPartition.t Scheme).
Implicit Types (l : list (UserPartition.t Scheme)).
Implicit Types (ps rest : list (option (UserPartition.t Scheme))).

(** ** The linear scan *)

Lemma scan_cons_ne p rest pid :
  UserPartition.id p ≠ pid →
  _get_partition_from_id (Some p :: rest) pid = _get_partition_from_id rest pid.
Proof. intros Hne. simpl. by rewrite bool_decide_false. Qed.

Lemma scan_cons_eq p rest pid :
  UserPartition.id p = pid →
  _get_partition_from_id (Some p :: rest) pid = Return (Some p).
Proof. intros Heq. simpl. by rewrite bool_decide_true. Qed.

Lemma scan_none rest pid :
  _get_partition_from_id (None :: rest) pid
  = Raise (AttributeError "'NoneType' object has no attribute 'id'").
Proof. reflexivity. Qed.

(** Static partitions that do not match are skipped. *)
Lemma scan_static_miss l rest pid :
  pid ∉ (UserPartition.id <$> l) →
  _get_partition_from_id ((Some <$> l) ++ rest) pid
  = _get_partition_from_id rest pid.
Proof.
  induction l as [|p l IH]; intros Hnot; [done|].
  rewrite fmap_cons, not_elem_of_cons in Hnot. destruct Hnot as [Hp Hl].
  rewrite fmap_cons. simpl app. rewrite scan_cons_ne by congruence. auto.
Qed.

(** A matching static partition is found, and it is the first that matches. *)
Lemma scan_static_hit l rest pid :
  pid ∈ (UserPartition.id <$> l) →
  ∃ l1 p l2, l = l1 ++ p :: l2 ∧ (pid ∉ (UserPartition.id <$> l1)) ∧
    UserPartition.id p = pid ∧
    _get_partition_from_id ((Some <$> l) ++ rest) pid = Return (Some p).
Proof.
  induction l as [|q l IH]; intros Hin.
  - by apply elem_of_nil in Hin.
  - destruct (decide (UserPartition.id q = pid)) as [Heq|Hne].
    + exists [], q, l. split_and!; [done|apply not_elem_of_nil|done|].
      rewrite fmap_cons. simpl app. by apply scan_cons_eq.
    + rewrite fmap_cons, elem_of_cons in Hin.
      destruct Hin as [->|Hin]; [done|].
      destruct (IH Hin) as (l1 & p & l2 & -> & Hl1 & Hp & Hscan).
      exists (q :: l1), p, l2. split_and!; [done| |done|].
      * rewrite fmap_cons, not_elem_of_cons. split; [congruence|done].
      * rewrite fmap_cons. simpl app. by rewrite scan_cons_ne.
Qed.

Lemma first_with_id_cons p l pid :
  first_with_id (p :: l) pid
  = if decide (UserPartition.id p = pid) then Some p else first_with_id l pid.
Proof. unfold first_with_id. rewrite filter_cons. by case_decide. Qed.

Lemma first_with_id_None l pid :
  first_with_id l pid = None ↔ pid ∉ (UserPartition.id <$> l).
Proof.
  induction l as [|p l IH].
  { split; [intros _; apply not_elem_of_nil|done]. }
  rewrite first_with_id_cons, fmap_cons, not_elem_of_cons.
  case_decide as Hq.
  - split; [done|]. intros [Hne _]. by destruct Hne.
  - rewrite IH. split; [|by intros [_ ?]]. intros Hl. split; [congruence|done].
Qed.

Lemma first_with_id_Some l pid p :
  first_with_id l pid = Some p ↔
  ∃ l1 l2, l = l1 ++ p :: l2 ∧ (pid ∉ (UserPartition.id <$> l1)) ∧
    UserPartition.id p = pid.
Proof.
  revert p. induction l as [|q l IH]; intros p.
  - split; [done|]. intros (l1 & l2 & Hl & _). by destruct l1.
  - rewrite first_with_id_cons. case_decide as Hq.
    + split.
      * intros [= ->]. exists [], l. split_and!; [done|apply not_elem_of_nil|done].
      * intros ([|q' l1] & l2 & Hl & Hl1 & Hp).
        -- by injection Hl as ->.
        -- injection Hl as <- _. exfalso. apply Hl1. rewrite fmap_cons, Hq.
           apply list_elem_of_here.
    + rewrite IH. split.
      * intros (l1 & l2 & -> & Hl1 & Hp). exists (q :: l1), l2.
        split_and!; [done| |done].
        rewrite fmap_cons, not_elem_of_cons. split; [congruence|done].
      * intros ([|q' l1] & l2 & Hl & Hl1 & Hp).
        -- injection Hl as -> _. done.
        -- injection Hl as <- ->. exists l1, l2. split_and!; [done| |done].
           rewrite fmap_cons, not_elem_of_cons in Hl1. by destruct Hl1.
Qed.

Lemma first_with_id_is_Some l pid :
  is_Some (first_with_id l pid) ↔ pid ∈ (UserPartition.id <$> l).
Proof.
  destruct (decide (pid ∈ (UserPartition.id <$> l))) as [Hin|Hnot].
  - split; [done|]. intros _.
    destruct (first_with_id l pid) eqn:Hfirst; [by eexists|].
    by apply first_with_id_None in Hfirst.
  - split; [|done]. apply first_with_id_None in Hnot. rewrite Hnot.
    by intros [? [=]].
Qed.

(** Over a run of partitions the scan stops at the first with the id, and
    goes on with what follows when there is none. *)
Lemma scan_prefix l rest pid :
  _get_partition_from_id ((Some <$> l) ++ rest) pid
  = match first_with_id l pid with
    | Some p => Return (Some p)
    | None => _get_partition_from_id rest pid
    end.
Proof.
  induction l as [|p l IH]; [done|].
  rewrite fmap_cons, first_with_id_cons. simpl app. case_decide.
  - by apply scan_cons_eq.
  - by rewrite scan_cons_ne.
Qed.

(** Every list is a run of partitions without the id followed by a partition
    with the id, or by a [None], or by nothing; the scan answers accordingly. *)
Lemma scan_cases ps pid :
  (∃ before p after, ps = (Some <$> before) ++ Some p :: after ∧
     (pid ∉ (UserPartition.id <$> before)) ∧ UserPartition.id p = pid ∧
     _get_partition_from_id ps pid = Return (Some p)) ∨
  (∃ before after, ps = (Some <$> before) ++ None :: after ∧
     (pid ∉ (UserPartition.id <$> before)) ∧
     _get_partition_from_id ps pid
     = Raise (AttributeError "'NoneType' object has no attribute 'id'")) ∨
  (∃ l, ps = Some <$> l ∧ (pid ∉ (UserPartition.id <$> l)) ∧
     _get_partition_from_id ps pid = Return None).
Proof.
  induction ps as [|[p|] ps IH].
  - right; right. exists []. split_and!; [done|apply not_elem_of_nil|done].
  - destruct (decide (UserPartition.id p = pid)) as [Heq|Hne].
    + left. exists [], p, ps.
      split_and!; [done|apply not_elem_of_nil|done|by apply scan_cons_eq].
    + rewrite (scan_cons_ne p ps pid Hne).
      destruct IH as [(b & p' & a & -> & Hb & Hp & Hs)
                     |[(b & a & -> & Hb & Hs)|(l & -> & Hl & Hs)]].
      * left. exists (p :: b), p', a. split_and!; [done| |done|done].
        rewrite fmap_cons, not_elem_of_cons. split; [congruence|done].
      * right; left. exists (p :: b), a. split_and!; [done| |done].
        rewrite fmap_cons, not_elem_of_cons. split; [congruence|done].
      * right; right. exists (p :: l). split_and!; [done| |done].
        rewrite fmap_cons, not_elem_of_cons. split; [congruence|done].
  - right; left. exists [], ps. split_and!; [done|apply not_elem_of_nil|done].
Qed.

(** ** Creation of the enrollment-track partition *)

Lemma reserved_id_used_first course :
  reserved_id_used course ↔
  is_Some (first_with_id (user_partitions course) 50).
Proof. by rewrite first_with_id_is_Some. Qed.

Lemma create_unregistered course w :
  scheme_registry !! "enrollment_track" = None →
  _create_enrollment_track_partition course w
  = (Return None,
     mkWorld (self w) (store w) (trace w)
       (warnings w ++ ["No 'enrollment_track' scheme registered, EnrollmentTrackUserPartition will not be created."])).
Proof.
  intros Hreg. unfold _create_enrollment_track_partition, get_scheme.
  rewrite Hreg. reflexivity.
Qed.

(** The scheme is registered and the reserved id is taken: the code is at the
    formatting of the warning about the first static partition with id 50. *)
Lemma create_conflict course w sch p :
  scheme_registry !! "enrollment_track" = Some sch →
  first_with_id (user_partitions course) 50 = Some p →
  _create_enrollment_track_partition course w
  = (partition_text ← lift (format_arg (UserPartition.name p));
     log_warning ("Cannot add 'enrollment_track' partition, as ID 50 is assigned to "
                  +:+ partition_text);;
     ret None) w.
Proof.
  intros Hreg Hfirst.
  assert (reserved_id_used course) as Hused
    by (apply reserved_id_used_first; by rewrite Hfirst).
  unfold _create_enrollment_track_partition, get_scheme. rewrite Hreg.
  rewrite bool_decide_true by (apply elem_of_list_to_set; exact Hused).
  pose proof (scan_prefix (user_partitions course) [] 50) as Hscan.
  rewrite app_nil_r, Hfirst in Hscan.
  run. unfold ENROLLMENT_TRACK_PARTITION_ID. by rewrite Hscan.
Qed.

Lemma create_clash course w sch p :
  scheme_registry !! "enrollment_track" = Some sch →
  first_with_id (user_partitions course) 50 = Some p →
  is_ascii_text (UserPartition.name p) = true →
  _create_enrollment_track_partition course w
  = (Return None,
     mkWorld (self w) (store w) (trace w)
       (warnings w
        ++ ["Cannot add 'enrollment_track' partition, as ID 50 is assigned to "
            +:+ UserPartition.name p])).
Proof.
  intros Hreg Hfirst Hascii. rewrite (create_conflict course w sch p Hreg Hfirst).
  run. unfold format_arg. by rewrite Hascii.
Qed.

Lemma create_clash_unicode course w sch p :
  scheme_registry !! "enrollment_track" = Some sch →
  first_with_id (user_partitions course) 50 = Some p →
  is_ascii_text (UserPartition.name p) = false →
  _create_enrollment_track_partition course w
  = (Raise (UnicodeEncodeError (UserPartition.name p)), w).
Proof.
  intros Hreg Hfirst Hascii. rewrite (create_conflict course w sch p Hreg Hfirst).
  run. unfold format_arg. by rewrite Hascii.
Qed.

Lemma create_fresh course w sch :
  scheme_registry !! "enrollment_track" = Some sch →
  ¬ reserved_id_used course →
  _create_enrollment_track_partition course w
  = (Return (Some (enrollment_track_partition sch course)), w).
Proof.
  intros Hreg Hfree. unfold _create_enrollment_track_partition, get_scheme.
  rewrite Hreg. rewrite bool_decide_false; [reflexivity|].
  intros Hin. apply Hfree. by apply elem_of_list_to_set in Hin.
Qed.

(** ** The combined list *)

Lemma only_logged_refl w : only_logged w w.
Proof. repeat split. exists []. by rewrite app_nil_r. Qed.

Lemma only_logged_warn w msg :
  only_logged w (mkWorld (self w) (store w) (trace w) (warnings w ++ [msg])).
Proof. repeat split. by exists [msg]. Qed.

Lemma creation_skipped course :
  scheme_registry !! "enrollment_track" = None ∨ reserved_id_used course →
  ¬ conflict_unencodable course →
  creation_outcome course = Return None.
Proof.
  intros Hskip Hok. unfold creation_outcome.
  destruct (scheme_registry !! "enrollment_track") as [sch|] eqn:Hreg; [|done].
  destruct Hskip as [|Hused]; [done|].
  apply reserved_id_used_first in Hused as [p Hp]. rewrite Hp.
  destruct (is_ascii_text (UserPartition.name p)) eqn:Hascii; [done|].
  destruct Hok. split; [by rewrite Hreg|]. by exists p.
Qed.

Lemma creation_unencodable course :
  conflict_unencodable course →
  ∃ p, first_with_id (user_partitions course) 50 = Some p ∧
    is_ascii_text (UserPartition.name p) = false ∧
    creation_outcome course = Raise (UnicodeEncodeError (UserPartition.name p)).
Proof.
  intros [[sch Hreg] (p & Hp & Hascii)]. exists p. split_and!; [done..|].
  unfold creation_outcome. by rewrite Hreg, Hp, Hascii.
Qed.

Lemma creation_fresh course sch :
  scheme_registry !! "enrollment_track" = Some sch →
  ¬ reserved_id_used course →
  creation_outcome course = Return (Some (enrollment_track_partition sch course)).
Proof.
  intros Hreg Hfree. unfold creation_outcome. rewrite Hreg.
  destruct (first_with_id (user_partitions course) 50) as [p|] eqn:Hp; [|done].
  destruct Hfree. apply reserved_id_used_first. by rewrite Hp.
Qed.

Lemma creation_return_inv course d :
  creation_outcome course = Return d →
  (d = None ∧
   (scheme_registry !! "enrollment_track" = None ∨ reserved_id_used course)) ∨
  (∃ sch, scheme_registry !! "enrollment_track" = Some sch ∧
     ¬ reserved_id_used course ∧
     d = Some (enrollment_track_partition sch course)).
Proof.
  unfold creation_outcome.
  destruct (scheme_registry !! "enrollment_track") as [sch|] eqn:Hreg.
  - destruct (first_with_id (user_partitions course) 50) as [p|] eqn:Hp.
    + destruct (is_ascii_text (UserPartition.name p)); [|done].
      intros [= <-]. left. split; [done|]. right.
      apply reserved_id_used_first. by rewrite Hp.
    + intros [= <-]. right. exists sch. split_and!; [done| |done].
      intros Hused%reserved_id_used_first. rewrite Hp in Hused.
      by destruct Hused.
  - intros [= <-]. left. split; [done|by left].
Qed.

Lemma creation_raise_inv course e :
  creation_outcome course = Raise e →
  conflict_unencodable course ∧ ∃ text, e = UnicodeEncodeError text.
Proof.
  unfold creation_outcome, conflict_unencodable.
  destruct (scheme_registry !! "enrollment_track") as [sch|] eqn:Hreg; [|done].
  destruct (first_with_id (user_partitions course) 50) as [p|] eqn:Hp; [|done].
  destruct (is_ascii_text (UserPartition.name p)) eqn:Hascii; [done|].
  intros [= <-]. split; [|by eexists]. split; [by eexists|]. by exists p.
Qed.

(** Creation comes to [creation_outcome], and it only logs. *)
Lemma create_outcome course w :
  ∃ w', _create_enrollment_track_partition course w
        = (creation_outcome course, w') ∧ only_logged w w'.
Proof.
  unfold creation_outcome.
  destruct (scheme_registry !! "enrollment_track") as [sch|] eqn:Hreg.
  - destruct (first_with_id (user_partitions course) 50) as [p|] eqn:Hp.
    + destruct (is_ascii_text (UserPartition.name p)) eqn:Hascii.
      * rewrite (create_clash course w sch p Hreg Hp Hascii).
        eexists. split; [reflexivity|apply only_logged_warn].
      * rewrite (create_clash_unicode course w sch p Hreg Hp Hascii).
        eexists. split; [reflexivity|apply only_logged_refl].
    + rewrite (create_fresh course w sch Hreg).
      * eexists. split; [reflexivity|apply only_logged_refl].
      * intros Hused%reserved_id_used_first. rewrite Hp in Hused.
        by destruct Hused.
  - rewrite (create_unregistered course w Hreg).
    eexists. split; [reflexivity|apply only_logged_warn].
Qed.

(** The combined list comes to [combined_result]: the static list followed by
    exactly one slot, unless the creation raises. *)
Lemma partitions_outcome course w :
  ∃ w', get_course_user_partitions course w = (combined_result course, w')
        ∧ only_logged w w'.
Proof.
  destruct (create_outcome course w) as (w' & Hc & Hlog).
  exists w'. split; [|done].
  unfold get_course_user_partitions, _get_dynamic_partitions, combined_result.
  run. rewrite Hc. by destruct (creation_outcome course).
Qed.

Lemma combined_result_inv course combined :
  combined_result course = Return combined →
  ∃ d, creation_outcome course = Return d ∧
    combined = (Some <$> user_partitions course) ++ [d].
Proof.
  unfold combined_result. destruct (creation_outcome course) as [d|e]; [|done].
  intros [= <-]. by exists d.
Qed.

Lemma combined_result_not_static course :
  combined_result course ≠ Return (Some <$> user_partitions course).
Proof.
  intros (d & _ & Heq)%combined_result_inv.
  apply (f_equal length) in Heq. rewrite length_app in Heq. simpl in Heq. lia.
Qed.

Lemma omap_Some_fmap l : omap (λ o, o) (Some <$> l) = l.
Proof. induction l as [|p l IH]; [done|]. csimpl. by f_equal. Qed.

Lemma partition_ids_combined l (d : option (UserPartition.t Scheme)) :
  partition_ids ((Some <$> l) ++ [d])
  = (UserPartition.id <$> l) ++ (UserPartition.id <$> option_list d).
Proof.
  unfold partition_ids. rewrite omap_app, fmap_app, omap_Some_fmap.
  by destruct d.
Qed.

(** C1. When the 'enrollment_track' scheme is not registered, or a static
    partition uses the reserved id 50, [get_course_user_partitions] never
    returns the static list.  Unless the warning about the conflicting
    partition cannot be formatted, it raises no error and returns the static
    list followed by one [None], hence a list one element longer; when the
    scheme is registered and the first partition with id 50 has a name
    outside ASCII, it raises the [UnicodeEncodeError] of that formatting. *)
Theorem get_course_user_partitions_appends_none course w :
  scheme_registry !! "enrollment_track" = None ∨ reserved_id_used course →
  (¬ conflict_unencodable course →
   (get_course_user_partitions course w).1
     = Return ((Some <$> user_partitions course) ++ [None])) ∧
  (conflict_unencodable course →
   ∃ text, (get_course_user_partitions course w).1
           = Raise (UnicodeEncodeError text)) ∧
  (get_course_user_partitions course w).1
    ≠ Return (Some <$> user_partitions course).
Proof.
  intros Hskip. destruct (partitions_outcome course w) as (w' & -> & _).
  simpl. split_and!.
  - intros Hok. unfold combined_result.
    by rewrite (creation_skipped course Hskip Hok).
  - intros (p & _ & _ & Hraise)%creation_unencodable.
    unfold combined_result. rewrite Hraise. by eexists.
  - apply combined_result_not_static.
Qed.

(** C5. When the 'enrollment_track' scheme is registered and no static
    partition has id 50, [get_course_user_partitions] returns the static
    partitions followed by exactly one more element, a partition of the
    registered scheme with id 50, the fixed (translated) name and description
    and the parameters [{"course_id": <branch-independent course id>}]; no
    warning is logged. *)
Theorem get_course_user_partitions_appends_enrollment_track course w sch :
  scheme_registry !! "enrollment_track" = Some sch →
  ¬ reserved_id_used course →
  ∃ p, get_course_user_partitions course w
       = (Return ((Some <$> user_partitions course) ++ [Some p]), w) ∧
    UserPartition.id p = 50 ∧
    UserPartition.name p = ugettext "Enrollment Track Partition" ∧
    UserPartition.description p
      = ugettext "Partition for segmenting users by enrollment track" ∧
    UserPartition.parameters p
      = {[ "course_id" := unicode (for_branch (course_key course) None) ]} ∧
    UserPartition.scheme p = sch.
Proof.
  intros Hreg Hfree. exists (enrollment_track_partition sch course).
  split; [|done].
  unfold get_course_user_partitions, _get_dynamic_partitions. run.
  by rewrite (create_fresh course w sch Hreg Hfree).
Qed.

(** C7. When the static partitions of a course have pairwise distinct ids,
    every list that [get_course_user_partitions] returns holds partitions
    with pairwise distinct ids, and when a static partition uses id 50 it
    holds no partition besides the static ones.  The call does return a list
    unless the scheme is registered and the first static partition with id
    50 has a name outside ASCII, in which case the warning cannot be
    formatted and the call raises. *)
Theorem combined_partition_ids_distinct course w :
  NoDup (static_ids course) →
  (∀ combined,
     (get_course_user_partitions course w).1 = Return combined →
     NoDup (partition_ids combined) ∧
     (reserved_id_used course → partition_ids combined = static_ids course)) ∧
  (¬ conflict_unencodable course →
   ∃ combined, (get_course_user_partitions course w).1 = Return combined).
Proof.
  intros Hdistinct. destruct (partitions_outcome course w) as (w' & -> & _).
  simpl. split.
  - intros combined (d & Hd & ->)%combined_result_inv.
    rewrite partition_ids_combined. fold (static_ids course).
    destruct (creation_return_inv course d Hd)
      as [[-> _]|(sch & _ & Hfree & ->)]; simpl.
    + rewrite app_nil_r. by split.
    + split; [|done]. apply NoDup_app. split_and!; [done| |apply NoDup_singleton].
      intros i Hi ->%list_elem_of_singleton. by apply Hfree.
  - intros Hok. unfold combined_result.
    destruct (creation_outcome course) as [d|e] eqn:Hd; [by eexists|].
    by destruct (creation_raise_inv course e Hd) as [? _].
Qed.

(** ** The service: the ways through [get_user_group_id_for_partition] *)

Lemma with_cache_same (s : PartitionService) : with_cache s (_cache s) = s.
Proof. by destruct s. Qed.

(** The property [course_partitions] comes to the combined list of the
    course of the service. *)
Lemma course_partitions_outcome w :
  ∃ w', course_partitions w = (combined_result (get_course (self w)), w')
        ∧ only_logged w w'.
Proof.
  destruct (partitions_outcome (get_course (self w)) w) as (w' & Hout & Hlog).
  exists w'. split; [|done]. unfold course_partitions. run. exact Hout.
Qed.

Lemma course_partitions_inv w combined :
  (course_partitions w).1 = Return combined →
  combined_result (get_course (self w)) = Return combined ∧
  ∃ d, combined = (Some <$> user_partitions (get_course (self w))) ++ [d].
Proof.
  destruct (course_partitions_outcome w) as (w' & -> & _). simpl.
  intros Hres. split; [done|].
  destruct (combined_result_inv _ _ Hres) as (d & _ & ->). by exists d.
Qed.

Lemma resolution_combined course combined pid :
  combined_result course = Return combined →
  resolution course pid = _get_partition_from_id combined pid.
Proof. unfold resolution. by intros ->. Qed.

Lemma get_user_partition_scan pid w :
  ∃ w', _get_user_partition pid w
        = (resolution (get_course (self w)) pid, w')
        ∧ only_logged w w'.
Proof.
  destruct (course_partitions_outcome w) as (w' & Hout & Hlog).
  exists w'. split; [|done].
  unfold _get_user_partition, resolution. run. rewrite Hout.
  by destruct (combined_result (get_course (self w))).
Qed.

Lemma service_hit pid w :
  cache_hit (self w) (cache_key (self w) pid) = true →
  get_user_group_id_for_partition pid w
  = (cache_getitem (self w) (cache_key (self w) pid), w).
Proof.
  intros Hhit. unfold get_user_group_id_for_partition. run. by rewrite Hhit.
Qed.

Lemma service_miss_absent pid w :
  cache_hit (self w) (cache_key (self w) pid) = false →
  resolution (get_course (self w)) pid = Return None →
  ∃ w', only_logged w w' ∧
    get_user_group_id_for_partition pid w
    = (Raise (ValueError ("Configuration problem!  No user_partition with id "
                          +:+ pretty pid +:+ " in course "
                          +:+ unicode (_course_id (self w)))), w').
Proof.
  intros Hmiss Hscan.
  destruct (get_user_partition_scan pid w) as (w' & Hup & Hlog).
  exists w'. split; [done|].
  unfold get_user_group_id_for_partition. run. rewrite Hmiss.
  by rewrite Hup, Hscan.
Qed.

Lemma service_miss_broken pid w e :
  cache_hit (self w) (cache_key (self w) pid) = false →
  resolution (get_course (self w)) pid = Raise e →
  ∃ w', only_logged w w' ∧
    get_user_group_id_for_partition pid w = (Raise e, w').
Proof.
  intros Hmiss Hscan.
  destruct (get_user_partition_scan pid w) as (w' & Hup & Hlog).
  exists w'. split; [done|].
  unfold get_user_group_id_for_partition. run. rewrite Hmiss.
  by rewrite Hup, Hscan.
Qed.

Lemma service_miss_found pid w p :
  cache_hit (self w) (cache_key (self w) pid) = false →
  resolution (get_course (self w)) pid = Return (Some p) →
  ∃ msgs,
    get_user_group_id_for_partition pid w
    = (Return (Group.id <$> (scheme_answer (self w) p true (store w)).1),
       mkWorld
         (with_cache (self w)
            (insert (cache_key (self w) pid)
               (Group.id <$> (scheme_answer (self w) p true (store w)).1)
             <$> _cache (self w)))
         (scheme_answer (self w) p true (store w)).2
         (trace w ++ [call_of (self w) p true])
         (warnings w ++ msgs)).
Proof.
  intros Hmiss Hscan.
  destruct (get_user_partition_scan pid w)
    as (w' & Hup & Hself & Hstore & Htrace & msgs & Hwarn).
  exists msgs.
  unfold get_user_group_id_for_partition. run. rewrite Hmiss.
  rewrite Hup, Hscan. unfold get_group, scheme_answer, call_of.
  rewrite Hself, Hstore, Htrace, Hwarn.
  destruct (get_group_for_user _ _ _ _ _ _ _) as [g st'] eqn:Hg. simpl.
  destruct (_cache (self w)) as [d|] eqn:Hcache.
  - rewrite bool_decide_true by done. unfold cache_setitem. simpl.
    by rewrite Hcache.
  - rewrite bool_decide_false by (by intros []). simpl.
    by rewrite <- Hcache, with_cache_same.
Qed.

Lemma cache_hit_lookup (s : PartitionService) key d v :
  _cache s = Some d → d !! key = Some v →
  cache_hit s key = true ∧ cache_getitem s key = Return v.
Proof.
  intros Hc Hk. unfold cache_hit, cache_getitem, dict_getitem. rewrite Hc, Hk.
  split; [|done]. apply andb_true_intro. split.
  - apply bool_decide_eq_true. intros ->. by rewrite lookup_empty in Hk.
  - apply bool_decide_eq_true. by exists v.
Qed.

Lemma cache_hit_inv (s : PartitionService) key :
  cache_hit s key = true →
  ∃ d v, _cache s = Some d ∧ d !! key = Some v.
Proof.
  unfold cache_hit. destruct (_cache s) as [d|]; [|done].
  intros [_ [v Hv]%bool_decide_eq_true]%andb_prop. by exists d, v.
Qed.

(** A partition id held by a static list with its one slot is found by the
    scan, at the first position that holds it, and every element before is a
    partition. *)
Lemma scan_combined_hit l (d : option (UserPartition.t Scheme)) pid :
  pid ∈ partition_ids ((Some <$> l) ++ [d]) →
  ∃ before p after,
    (Some <$> l) ++ [d] = (Some <$> before) ++ Some p :: after ∧
    (pid ∉ (UserPartition.id <$> before)) ∧ UserPartition.id p = pid ∧
    _get_partition_from_id ((Some <$> l) ++ [d]) pid = Return (Some p).
Proof.
  rewrite partition_ids_combined.
  intros Hin. destruct (decide (pid ∈ (UserPartition.id <$> l)))
    as [Hstatic|Hdyn].
  - destruct (scan_static_hit _ [d] pid Hstatic)
      as (l1 & p & l2 & Hl & Hl1 & Hp & Hscan).
    exists l1, p, ((Some <$> l2) ++ [d]).
    split_and!; [|done..].
    rewrite Hl, fmap_app, fmap_cons, <- app_assoc. done.
  - apply elem_of_app in Hin as [Hin|Hin]; [done|].
    destruct d as [p|]; [|by apply elem_of_nil in Hin].
    simpl in Hin. apply list_elem_of_singleton in Hin.
    exists l, p, []. split_and!; [done..|].
    rewrite scan_static_miss by done. by apply scan_cons_eq.
Qed.

(** C2. When the cache supplied to the service holds the key derived from
    (user id, course id, partition id), [get_user_group_id_for_partition]
    returns the cached value and leaves the world as it was: no scheme is
    invoked, nothing is persisted, nothing is logged.  A second call therefore
    returns the same value again. *)
Theorem cached_group_id_returned pid w d v :
  _cache (self w) = Some d →
  d !! cache_key (self w) pid = Some v →
  get_user_group_id_for_partition pid w = (Return v, w) ∧
  trace (get_user_group_id_for_partition pid w).2 = trace w ∧
  (v1 ← get_user_group_id_for_partition pid;
   v2 ← get_user_group_id_for_partition pid;
   ret (v1, v2)) w = (Return (v, v), w).
Proof.
  intros Hc Hk.
  destruct (cache_hit_lookup _ _ _ _ Hc Hk) as [Hhit Hget].
  assert (get_user_group_id_for_partition pid w = (Return v, w)) as Hcall
    by (by rewrite service_hit, Hget).
  split_and!; [done|by rewrite Hcall|].
  run. by rewrite !Hcall.
Qed.

(** C3. On a cache miss, when the enrollment-track partition is not created
    (scheme not registered, or id 50 taken) and no static partition has the
    requested id, [get_user_group_id_for_partition] never raises the
    [ValueError] of a configuration problem.  Unless the warning about the
    conflicting partition cannot be formatted, the scan runs into the [None]
    at the end of the combined list and the call raises an [AttributeError];
    when the scheme is registered and the first partition with id 50 has a
    name outside ASCII, the call raises the [UnicodeEncodeError] of that
    formatting. *)
Theorem unknown_partition_id_attribute_error pid w :
  cache_hit (self w) (cache_key (self w) pid) = false →
  scheme_registry !! "enrollment_track" = None
    ∨ reserved_id_used (get_course (self w)) →
  pid ∉ static_ids (get_course (self w)) →
  (¬ conflict_unencodable (get_course (self w)) →
   (get_user_group_id_for_partition pid w).1
     = Raise (AttributeError "'NoneType' object has no attribute 'id'")) ∧
  (conflict_unencodable (get_course (self w)) →
   ∃ text, (get_user_group_id_for_partition pid w).1
           = Raise (UnicodeEncodeError text)) ∧
  ∀ msg, (get_user_group_id_for_partition pid w).1 ≠ Raise (ValueError msg).
Proof.
  intros Hmiss Hskip Hnot.
  assert (¬ conflict_unencodable (get_course (self w)) →
          (get_user_group_id_for_partition pid w).1
          = Raise (AttributeError "'NoneType' object has no attribute 'id'"))
    as Hattr.
  { intros Hok.
    assert (resolution (get_course (self w)) pid
            = Raise (AttributeError "'NoneType' object has no attribute 'id'"))
      as Hscan.
    { unfold resolution, combined_result.
      rewrite (creation_skipped _ Hskip Hok).
      by rewrite scan_static_miss by done. }
    by destruct (service_miss_broken pid w _ Hmiss Hscan) as (w' & _ & ->). }
  assert (conflict_unencodable (get_course (self w)) →
          ∃ text, (get_user_group_id_for_partition pid w).1
                  = Raise (UnicodeEncodeError text)) as Hunicode.
  { intros (p & _ & _ & Hraise)%creation_unencodable.
    assert (resolution (get_course (self w)) pid
            = Raise (UnicodeEncodeError (UserPartition.name p))) as Hscan.
    { unfold resolution, combined_result. by rewrite Hraise. }
    destruct (service_miss_broken pid w _ Hmiss Hscan) as (w' & _ & ->).
    by eexists. }
  split_and!; [done..|].
  intros msg Hvalue.
  destruct (creation_outcome (get_course (self w))) as [d|e] eqn:Hd.
  - rewrite Hattr in Hvalue; [done|].
    intros (p & _ & _ & Hraise)%creation_unencodable. congruence.
  - destruct (creation_raise_inv _ e Hd) as [Hbad _].
    destruct (Hunicode Hbad) as (text & Htext). congruence.
Qed.

(** The configuration error is what an unknown id yields when the
    enrollment-track partition was created. *)
Lemma unknown_partition_id_value_error pid w sch :
  cache_hit (self w) (cache_key (self w) pid) = false →
  scheme_registry !! "enrollment_track" = Some sch →
  ¬ reserved_id_used (get_course (self w)) →
  pid ∉ static_ids (get_course (self w)) → pid ≠ 50 →
  ∃ msg, (get_user_group_id_for_partition pid w).1 = Raise (ValueError msg).
Proof.
  intros Hmiss Hreg Hfree Hnot Hne.
  assert (resolution (get_course (self w)) pid = Return None) as Hscan.
  { unfold resolution, combined_result.
    rewrite (creation_fresh _ sch) by done.
    rewrite scan_static_miss by done.
    rewrite scan_cons_ne; [done|]. simpl. congruence. }
  destruct (service_miss_absent pid w Hmiss Hscan) as (w' & _ & ->).
  by eexists.
Qed.


(** C8. When the supplied cache holds the derived key,
    [get_user_group_id_for_partition] returns the cached value whatever the
    partitions of the course are, so also when none of them has the requested
    id; an exception can only come out of a call that missed the cache. *)
Theorem cached_group_id_needs_no_partition pid w :
  (∀ d v, _cache (self w) = Some d → d !! cache_key (self w) pid = Some v →
     (get_user_group_id_for_partition pid w).1 = Return v) ∧
  (∀ e, (get_user_group_id_for_partition pid w).1 = Raise e →
     cache_hit (self w) (cache_key (self w) pid) = false).
Proof.
  split.
  - intros d v Hc Hk. destruct (cache_hit_lookup _ _ _ _ Hc Hk) as [Hhit Hget].
    by rewrite service_hit, Hget.
  - intros e Hraise.
    destruct (cache_hit (self w) (cache_key (self w) pid)) eqn:Hhit; [|done].
    destruct (cache_hit_inv _ _ Hhit) as (d & v & Hc & Hk).
    destruct (cache_hit_lookup _ _ _ _ Hc Hk) as [_ Hget].
    by rewrite service_hit, Hget in Hraise.
Qed.

(** C9. Whenever [get_user_group_id_for_partition] raises, and so when it
    raises because no partition has the requested id, the service object with
    its cache, the store and the trace of scheme invocations are what they
    were before the call; only warnings may have been logged. *)
Theorem raising_call_keeps_cache pid w e w' :
  get_user_group_id_for_partition pid w = (Raise e, w') →
  _cache (self w') = _cache (self w) ∧ only_logged w w'.
Proof.
  intros Hcall.
  enough (only_logged w w') as Hlog
    by (split; [by destruct Hlog as [-> _]|done]).
  destruct (cache_hit (self w) (cache_key (self w) pid)) eqn:Hhit.
  - rewrite service_hit in Hcall by done. injection Hcall as _ <-.
    apply only_logged_refl.
  - destruct (resolution (get_course (self w)) pid) as [[p|]|e'] eqn:Hscan.
    + destruct (service_miss_found pid w p Hhit Hscan) as (msgs & Hfound).
      by rewrite Hfound in Hcall.
    + destruct (service_miss_absent pid w Hhit Hscan) as (w1 & Hlog & Habs).
      rewrite Habs in Hcall. by injection Hcall as _ <-.
    + destruct (service_miss_broken pid w e' Hhit Hscan) as (w1 & Hlog & Hbr).
      rewrite Hbr in Hcall. by injection Hcall as _ <-.
Qed.

(** C10. When the supplied cache is an empty mapping, the cache-hit branch is
    not taken; if the combined list holds a partition with the requested id,
    the scheme is invoked and the cache, though falsy when read, ends up
    holding the computed group id under the derived key as its one entry. *)
Theorem empty_cache_is_written pid w combined :
  _cache (self w) = Some ∅ →
  (course_partitions w).1 = Return combined →
  pid ∈ partition_ids combined →
  cache_hit (self w) (cache_key (self w) pid) = false ∧
  ∃ gid w',
    get_user_group_id_for_partition pid w = (Return gid, w') ∧
    length (trace w') = S (length (trace w)) ∧
    _cache (self w') = Some {[ cache_key (self w) pid := gid ]}.
Proof.
  intros Hempty (Hres & d0 & ->)%course_partitions_inv Hin.
  assert (cache_hit (self w) (cache_key (self w) pid) = false) as Hmiss.
  { unfold cache_hit. rewrite Hempty. unfold dict_truthy.
    by rewrite bool_decide_false by (by intros []). }
  split; [done|].
  destruct (scan_combined_hit _ d0 pid Hin) as (? & p & ? & _ & _ & _ & Hscan).
  rewrite <- (resolution_combined _ _ pid Hres) in Hscan.
  destruct (service_miss_found pid w p Hmiss Hscan) as (msgs & Hcall).
  eexists _, _. split_and!; [exact Hcall|..].
  - simpl. rewrite length_app. simpl. lia.
  - simpl. rewrite Hempty. simpl. by rewrite insert_empty.
Qed.


End properties.

(** * The properties on the concrete runtime *)

Lemma sample_bare_encodable course : ¬ @conflict_unencodable Sample.bare course.
Proof. intros [[sch Hreg] _]. discriminate Hreg. Qed.

Lemma get_course_user_partitions_appends_none_witness :
  (@scheme_registry Sample.bare !! "enrollment_track" = None
   ∨ reserved_id_used Sample.course_empty) ∧
  (get_course_user_partitions Sample.course_empty Sample.w_bare_empty).1
    = Return [None] ∧
  (get_course_user_partitions Sample.course_empty Sample.w_bare_empty).1
    ≠ Return [].
Proof.
  assert (@scheme_registry Sample.bare !! "enrollment_track" = None
          ∨ reserved_id_used Sample.course_empty) as Hskip
    by (left; reflexivity).
  split; [exact Hskip|].
  destruct (get_course_user_partitions_appends_none
              Sample.course_empty Sample.w_bare_empty Hskip)
    as (Hnone & _ & Hdiffers).
  split; [exact (Hnone (sample_bare_encodable _))|exact Hdiffers].
Defined.

(** The same happens when a static partition with an ASCII name holds the
    reserved id. *)
Example get_course_user_partitions_clash :
  (get_course_user_partitions Sample.course_clash Sample.w_none).1
  = Return [Some Sample.ab_test; Some Sample.squatter; None].
Proof. reflexivity. Qed.

(** When the name of that partition is not ASCII the call raises, and logs
    nothing. *)
Example get_course_user_partitions_clash_unicode :
  get_course_user_partitions Sample.course_equipes Sample.w_equipes
  = (Raise (UnicodeEncodeError (UserPartition.name Sample.equipes)),
     Sample.w_equipes).
Proof. reflexivity. Qed.

Lemma sample_plain_free : ¬ reserved_id_used Sample.course_plain.
Proof.
  unfold reserved_id_used, static_ids. simpl.
  intros Hin%list_elem_of_singleton. discriminate Hin.
Qed.

Lemma sample_plain_encodable : ¬ conflict_unencodable Sample.course_plain.
Proof. intros [_ (p & Hp & _)]. discriminate Hp. Qed.

Lemma sample_plain_combined (w : @World Sample.full) :
  get_course (self w) = Sample.course_plain →
  (course_partitions w).1 = Return Sample.combined_plain.
Proof. unfold course_partitions. run. simpl. by intros ->. Qed.

Lemma sample_plain_holds_1 :
  1 ∈ partition_ids Sample.combined_plain.
Proof. apply list_elem_of_here. Qed.

Lemma sample_bare_unknown : 9 ∉ static_ids Sample.course_bare.
Proof.
  unfold static_ids. simpl. intros Hin%list_elem_of_singleton.
  discriminate Hin.
Qed.


Lemma get_course_user_partitions_appends_enrollment_track_witness :
  @scheme_registry Sample.full !! "enrollment_track"
    = Some Sample.EnrollmentTrackScheme ∧
  ¬ reserved_id_used Sample.course_plain ∧
  ∃ p, get_course_user_partitions Sample.course_plain Sample.w_none
       = (Return [Some Sample.ab_test; Some p], Sample.w_none) ∧
    UserPartition.id p = 50 ∧
    UserPartition.name p = "Enrollment Track Partition" ∧
    UserPartition.description p
      = "Partition for segmenting users by enrollment track" ∧
    UserPartition.parameters p
      = {[ "course_id" := "course-v1:edX+DemoX+2017" ]} ∧
    UserPartition.scheme p = Sample.EnrollmentTrackScheme.
Proof.
  split; [reflexivity|]. split; [exact sample_plain_free|].
  exact (get_course_user_partitions_appends_enrollment_track
           Sample.course_plain Sample.w_none Sample.EnrollmentTrackScheme
           eq_refl sample_plain_free).
Defined.

Lemma combined_partition_ids_distinct_witness :
  NoDup (static_ids Sample.course_plain) ∧
  ∃ combined,
    (get_course_user_partitions Sample.course_plain Sample.w_none).1
      = Return combined ∧
    NoDup (partition_ids combined) ∧
    (reserved_id_used Sample.course_plain →
     partition_ids combined = static_ids Sample.course_plain).
Proof.
  assert (NoDup (static_ids Sample.course_plain)) as Hdistinct
    by (apply NoDup_singleton).
  split; [exact Hdistinct|].
  destruct (combined_partition_ids_distinct
              Sample.course_plain Sample.w_none Hdistinct) as [Hall Hreturns].
  destruct (Hreturns sample_plain_encodable) as (combined & Hcombined).
  exists combined. split; [exact Hcombined|exact (Hall combined Hcombined)].
Defined.

Lemma cached_group_id_returned_witness :
  _cache (self Sample.w_cached) = Some {[ Sample.key9 := Some 11 ]} ∧
  ({[ Sample.key9 := Some 11 ]} : gmap string (option Z))
    !! cache_key (self Sample.w_cached) 9 = Some (Some 11) ∧
  get_user_group_id_for_partition 9 Sample.w_cached
    = (Return (Some 11), Sample.w_cached) ∧
  trace (get_user_group_id_for_partition 9 Sample.w_cached).2 = [] ∧
  (v1 ← get_user_group_id_for_partition 9;
   v2 ← get_user_group_id_for_partition 9;
   ret (v1, v2)) Sample.w_cached = (Return (Some 11, Some 11), Sample.w_cached).
Proof.
  split; [reflexivity|]. split; [reflexivity|].
  exact (cached_group_id_returned 9 Sample.w_cached
           {[ Sample.key9 := Some 11 ]} (Some 11) eq_refl eq_refl).
Defined.

Lemma unknown_partition_id_attribute_error_witness :
  cache_hit (self Sample.w_bare) (cache_key (self Sample.w_bare) 9) = false ∧
  (@scheme_registry Sample.bare !! "enrollment_track" = None
   ∨ reserved_id_used (get_course (self Sample.w_bare))) ∧
  (9 ∉ static_ids (get_course (self Sample.w_bare))) ∧
  (get_user_group_id_for_partition 9 Sample.w_bare).1
    = Raise (AttributeError "'NoneType' object has no attribute 'id'") ∧
  ∀ msg, (get_user_group_id_for_partition 9 Sample.w_bare).1
         ≠ Raise (ValueError msg).
Proof.
  split; [reflexivity|]. split; [left; reflexivity|].
  split; [exact sample_bare_unknown|].
  destruct (unknown_partition_id_attribute_error 9 Sample.w_bare
              eq_refl (or_introl eq_refl) sample_bare_unknown)
    as (Hattr & _ & Hvalue).
  split; [exact (Hattr (sample_bare_encodable _))|exact Hvalue].
Defined.


Lemma cached_group_id_needs_no_partition_witness :
  (9 ∉ static_ids (get_course (self Sample.w_cached))) ∧
  (course_partitions Sample.w_cached).1 = Return Sample.combined_bare ∧
  (get_user_group_id_for_partition 9 Sample.w_cached).1 = Return (Some 11) ∧
  (get_user_group_id_for_partition 9 Sample.w_bare).1
    = Raise (AttributeError "'NoneType' object has no attribute 'id'") ∧
  cache_hit (self Sample.w_bare) (cache_key (self Sample.w_bare) 9) = false.
Proof.
  split; [exact sample_bare_unknown|]. split; [reflexivity|].
  split.
  - exact (proj1 (cached_group_id_needs_no_partition 9 Sample.w_cached)
             {[ Sample.key9 := Some 11 ]} (Some 11) eq_refl eq_refl).
  - split; [reflexivity|].
    exact (proj2 (cached_group_id_needs_no_partition 9 Sample.w_bare)
             _ eq_refl).
Defined.

Lemma raising_call_keeps_cache_witness :
  get_user_group_id_for_partition 9 Sample.w_empty
    = (Raise (ValueError "Configuration problem!  No user_partition with id 9 in course course-v1:edX+DemoX+2017+branch@draft"),
       Sample.w_empty) ∧
  _cache (self Sample.w_empty) = _cache (self Sample.w_empty) ∧
  only_logged Sample.w_empty Sample.w_empty.
Proof.
  assert (get_user_group_id_for_partition 9 Sample.w_empty
            = (Raise (ValueError "Configuration problem!  No user_partition with id 9 in course course-v1:edX+DemoX+2017+branch@draft"),
               Sample.w_empty)) as Hcall
    by (vm_compute; reflexivity).
  split; [exact Hcall|].
  exact (raising_call_keeps_cache 9 Sample.w_empty _ _ Hcall).
Defined.

Lemma empty_cache_is_written_witness :
  _cache (self Sample.w_empty) = Some ∅ ∧
  (course_partitions Sample.w_empty).1
    = Return Sample.combined_plain ∧
  1 ∈ partition_ids
        Sample.combined_plain ∧
  cache_hit (self Sample.w_empty) (cache_key (self Sample.w_empty) 1) = false ∧
  ∃ gid w',
    get_user_group_id_for_partition 1 Sample.w_empty = (Return gid, w') ∧
    length (trace w') = 1%nat ∧
    _cache (self w') = Some {[ cache_key (self Sample.w_empty) 1 := gid ]}.
Proof.
  split; [reflexivity|]. split; [reflexivity|].
  split; [exact sample_plain_holds_1|].
  exact (empty_cache_is_written 1 Sample.w_empty _ eq_refl
           (sample_plain_combined Sample.w_empty eq_refl)
           sample_plain_holds_1).
Defined.



(** * Further properties of the lookup and of the service *)

Section further_properties.
Context `{Collaborators}.

Implicit Types (course : Course) (w : World) (pid : Z).
Implicit Types (p q : UserPartition.t Scheme).
Implicit Types (l : list (UserPartition.t Scheme)).
Implicit Types (ps rest : list (option (UserPartition.t Scheme))).

(** ** The scan, on every list *)

(** X1. Over a list of partitions (no [None] among them), such as
    [course.user_partitions], [_get_partition_from_id] never raises: it
    returns the first partition of the list that has the id, and [None] when
    no partition of the list has it. *)
Theorem scan_of_partitions_returns_first l pid :
  _get_partition_from_id (Some <$> l) pid
  = Return (head (filter (λ p, UserPartition.id p = pid) l)).
Proof.
  pose proof (scan_prefix l [] pid) as Hscan. rewrite app_nil_r in Hscan.
  rewrite Hscan. fold (first_with_id l pid).
  by destruct (first_with_id l pid).
Qed.

(** X2. [_get_partition_from_id] returns a partition [p] exactly when the
    list starts with partitions of other ids followed by [p], and [p] has the
    requested id: the match returned is the first one, and elements after it
    are not looked at (they may be [None]). *)
Theorem scan_returns_partition_iff ps pid p :
  _get_partition_from_id ps pid = Return (Some p) ↔
  ∃ before after, ps = (Some <$> before) ++ Some p :: after ∧
    (pid ∉ (UserPartition.id <$> before)) ∧ UserPartition.id p = pid.
Proof.
  split.
  - intros Hs.
    destruct (scan_cases ps pid) as [(b & p' & a & Hps & Hb & Hp & Hs')
                                    |[(b & a & _ & _ & Hs')|(l & _ & _ & Hs')]];
      rewrite Hs' in Hs; [|done..].
    injection Hs as ->. by exists b, a.
  - intros (b & a & -> & Hb & Hp).
    rewrite scan_static_miss by done. by apply scan_cons_eq.
Qed.

(** X3. [_get_partition_from_id] raises exactly when a [None] of the list
    comes before any partition with the requested id, and what it raises is
    the [AttributeError] of [None.id]. *)
Theorem scan_raises_iff ps pid e :
  _get_partition_from_id ps pid = Raise e ↔
  e = AttributeError "'NoneType' object has no attribute 'id'" ∧
  ∃ before after, ps = (Some <$> before) ++ None :: after ∧
    (pid ∉ (UserPartition.id <$> before)).
Proof.
  split.
  - intros Hs.
    destruct (scan_cases ps pid) as [(b & p' & a & _ & _ & _ & Hs')
                                    |[(b & a & Hps & Hb & Hs')|(l & _ & _ & Hs')]];
      rewrite Hs' in Hs; [done| |done].
    injection Hs as <-. split; [done|]. by exists b, a.
  - intros (-> & b & a & -> & Hb).
    rewrite scan_static_miss by done. apply scan_none.
Qed.

(** X4. [_get_partition_from_id] returns [None] exactly when the list holds
    partitions only and none of them has the requested id. *)
Theorem scan_returns_none_iff ps pid :
  _get_partition_from_id ps pid = Return None ↔
  ∃ l, ps = Some <$> l ∧ (pid ∉ (UserPartition.id <$> l)).
Proof.
  split.
  - intros Hs.
    destruct (scan_cases ps pid) as [(b & p' & a & _ & _ & _ & Hs')
                                    |[(b & a & _ & _ & Hs')|(l & Hps & Hl & Hs')]];
      rewrite Hs' in Hs; [done|done|].
    by exists l.
  - intros (l & -> & Hl).
    pose proof (scan_static_miss l [] pid Hl) as Hs.
    by rewrite app_nil_r in Hs.
Qed.

(** ** Creation and the combined list, on every course *)

(** X5. [_create_enrollment_track_partition] touches nothing but the log.
    With the scheme not registered it returns [None] and logs one warning.
    With the scheme registered and no static partition on id 50 it returns a
    partition and logs nothing.  With the scheme registered and id 50 taken,
    the outcome hangs on the name of the first static partition with id 50:
    an ASCII name gives [None] and one warning, any other name gives the
    [UnicodeEncodeError] of the warning's formatting and no warning. *)
Theorem enrollment_track_creation_outcome course w :
  self (_create_enrollment_track_partition course w).2 = self w ∧
  store (_create_enrollment_track_partition course w).2 = store w ∧
  trace (_create_enrollment_track_partition course w).2 = trace w ∧
  (scheme_registry !! "enrollment_track" = None →
   (_create_enrollment_track_partition course w).1 = Return None ∧
   ∃ msg, warnings (_create_enrollment_track_partition course w).2
          = warnings w ++ [msg]) ∧
  (is_Some (scheme_registry !! "enrollment_track") →
   ¬ reserved_id_used course →
   (∃ p, (_create_enrollment_track_partition course w).1 = Return (Some p)) ∧
   warnings (_create_enrollment_track_partition course w).2 = warnings w) ∧
  (is_Some (scheme_registry !! "enrollment_track") →
   ∀ p, first_with_id (user_partitions course) 50 = Some p →
     if is_ascii_text (UserPartition.name p)
     then (_create_enrollment_track_partition course w).1 = Return None ∧
          ∃ msg, warnings (_create_enrollment_track_partition course w).2
                 = warnings w ++ [msg]
     else (_create_enrollment_track_partition course w).1
          = Raise (UnicodeEncodeError (UserPartition.name p)) ∧
          warnings (_create_enrollment_track_partition course w).2
          = warnings w).
Proof.
  destruct (create_outcome course w) as (w' & Hc & Hself & Hstore & Htrace & _).
  split_and!; [by rewrite Hc..| | |].
  - intros Hreg. rewrite (create_unregistered course w Hreg).
    split; [done|]. by eexists.
  - intros [sch Hreg] Hfree. rewrite (create_fresh course w sch Hreg Hfree).
    split; [by eexists|done].
  - intros [sch Hreg] p Hp.
    destruct (is_ascii_text (UserPartition.name p)) eqn:Hascii.
    + rewrite (create_clash course w sch p Hreg Hp Hascii).
      split; [done|]. by eexists.
    + by rewrite (create_clash_unicode course w sch p Hreg Hp Hascii).
Qed.

(** X6. When the scheme is registered and static partitions use id 50, the
    warning that is logged names the first static partition with id 50,
    provided the name of that partition is ASCII. *)
Theorem clash_warning_names_first_conflict course w sch p :
  scheme_registry !! "enrollment_track" = Some sch →
  head (filter (λ q, UserPartition.id q = 50) (user_partitions course))
    = Some p →
  is_ascii_text (UserPartition.name p) = true →
  _create_enrollment_track_partition course w
  = (Return None,
     mkWorld (self w) (store w) (trace w)
       (warnings w
        ++ ["Cannot add 'enrollment_track' partition, as ID 50 is assigned to "
            +:+ UserPartition.name p])).
Proof.
  intros Hreg Hfirst Hascii.
  fold (first_with_id (user_partitions course) 50) in Hfirst.
  rewrite (create_conflict course w sch p Hreg Hfirst).
  run. unfold format_arg. by rewrite Hascii.
Qed.

(** X7. [get_course_user_partitions] touches nothing but the log.  Every
    list it returns is one element longer than [course.user_partitions] and
    holds every static partition at the position it has there.  It raises
    exactly when the scheme is registered and the first static partition
    with id 50 has a name outside ASCII, and what it raises then is a
    [UnicodeEncodeError]. *)
Theorem combined_list_keeps_static_positions course w :
  only_logged w (get_course_user_partitions course w).2 ∧
  (∀ combined,
     (get_course_user_partitions course w).1 = Return combined →
     length combined = S (length (user_partitions course)) ∧
     ∀ i p, user_partitions course !! i = Some p →
            combined !! i = Some (Some p)) ∧
  (∀ e, (get_course_user_partitions course w).1 = Raise e →
     conflict_unencodable course ∧ ∃ text, e = UnicodeEncodeError text) ∧
  (conflict_unencodable course →
   ∃ text, (get_course_user_partitions course w).1
           = Raise (UnicodeEncodeError text)).
Proof.
  destruct (partitions_outcome course w) as (w' & -> & Hlog). simpl.
  split_and!; [done| | |].
  - intros combined (d & _ & ->)%combined_result_inv. split.
    + rewrite length_app, length_fmap. simpl. lia.
    + intros i p Hi. rewrite lookup_app_l.
      * by rewrite list_lookup_fmap, Hi.
      * rewrite length_fmap. by eapply lookup_lt_Some.
  - intros e. unfold combined_result.
    destruct (creation_outcome course) as [d|e'] eqn:Hd; [done|].
    intros [= <-]. by apply creation_raise_inv.
  - intros (p & _ & _ & Hraise)%creation_unencodable.
    unfold combined_result. rewrite Hraise. by eexists.
Qed.

(** ** The service across calls *)

Lemma cache_miss_lookup (s : PartitionService) key d :
  _cache s = Some d → cache_hit s key = false → d !! key = None.
Proof.
  unfold cache_hit. intros -> Hmiss.
  apply andb_false_iff in Hmiss as [Hempty|Hnot].
  - apply bool_decide_eq_false, dec_stable in Hempty.
    rewrite Hempty. apply lookup_empty.
  - apply bool_decide_eq_false in Hnot. by apply eq_None_not_Some.
Qed.


Lemma same_identity_refl (s : PartitionService) : same_identity s s.
Proof. by repeat split. Qed.

Lemma same_identity_with_cache (s : PartitionService) c :
  same_identity s (with_cache s c).
Proof. by repeat split. Qed.

Lemma cache_key_same_identity (s s' : PartitionService) pid :
  same_identity s s' → cache_key s' pid = cache_key s pid.
Proof. intros (Hu & Hc & _). unfold cache_key. by rewrite Hu, Hc. Qed.

(** What a call may change in the service object, whatever its outcome. *)
Lemma service_frame pid w r w' :
  get_user_group_id_for_partition pid w = (r, w') →
  same_identity (self w) (self w') ∧
  match _cache (self w) with
  | None => _cache (self w') = None
  | Some d =>
      ∃ d', _cache (self w') = Some d' ∧ d ⊆ d' ∧
        ∀ k, k ≠ cache_key (self w) pid → d' !! k = d !! k
  end.
Proof.
  intros Hcall.
  assert (self w' = self w →
          same_identity (self w) (self w') ∧
          match _cache (self w) with
          | None => _cache (self w') = None
          | Some d =>
              ∃ d', _cache (self w') = Some d' ∧ d ⊆ d' ∧
                ∀ k, k ≠ cache_key (self w) pid → d' !! k = d !! k
          end) as Hsame.
  { intros ->. split; [apply same_identity_refl|].
    destruct (_cache (self w)) as [d|]; [|done]. by exists d. }
  destruct (cache_hit (self w) (cache_key (self w) pid)) eqn:Hhit.
  - rewrite service_hit in Hcall by done. injection Hcall as _ <-. by apply Hsame.
  - destruct (resolution (get_course (self w)) pid) as [[p|]|e'] eqn:Hscan.
    + destruct (service_miss_found pid w p Hhit Hscan) as (msgs & Hfound).
      rewrite Hfound in Hcall. injection Hcall as _ <-. simpl.
      split; [apply same_identity_with_cache|].
      destruct (_cache (self w)) as [d|] eqn:Hc; [|done]. simpl.
      eexists. split; [done|].
      split; [apply insert_subseteq; by eapply cache_miss_lookup|].
      intros k Hk. by apply lookup_insert_ne.
    + destruct (service_miss_absent pid w Hhit Hscan)
        as (w1 & (Hself & _) & Habs).
      rewrite Habs in Hcall. injection Hcall as _ <-. by apply Hsame.
    + destruct (service_miss_broken pid w e' Hhit Hscan)
        as (w1 & (Hself & _) & Hbr).
      rewrite Hbr in Hcall. injection Hcall as _ <-. by apply Hsame.
Qed.

(** X8. The read guard [self._cache and (cache_key in self._cache)] is true
    exactly when a cache was supplied and holds the key: for a mapping the
    truthiness test changes nothing, since an empty mapping holds no key. *)
Theorem cache_hit_iff_key_held (s : PartitionService) key :
  cache_hit s key
  = match _cache s with
    | Some d => bool_decide (is_Some (d !! key))
    | None => false
    end.
Proof.
  unfold cache_hit, dict_truthy, dict_contains.
  destruct (_cache s) as [d|]; [|done].
  destruct (bool_decide (is_Some (d !! key))) eqn:Hk; [|apply andb_false_r].
  rewrite andb_true_r. apply bool_decide_eq_true. intros ->.
  apply bool_decide_eq_true in Hk. rewrite lookup_empty in Hk.
  by destruct Hk.
Qed.

(** X10. Whatever its outcome, a call of [get_user_group_id_for_partition]
    leaves the user, the course id, the track function and the course of the
    service as they were; a service without cache stays without; and a
    supplied cache keeps every entry it had, with its value, gaining at most
    an entry under the key derived for the call. *)
Theorem call_keeps_service_and_cache_entries pid w r w' :
  get_user_group_id_for_partition pid w = (r, w') →
  same_identity (self w) (self w') ∧
  (_cache (self w) = None → _cache (self w') = None) ∧
  (∀ d, _cache (self w) = Some d →
     ∃ d', _cache (self w') = Some d' ∧ d ⊆ d' ∧
       dom d' ⊆ dom d ∪ {[ cache_key (self w) pid ]}).
Proof.
  intros Hcall. destruct (service_frame pid w r w' Hcall) as [Hid Hcache].
  split_and!; [done| |].
  - intros Hc. by rewrite Hc in Hcache.
  - intros d Hc. rewrite Hc in Hcache.
    destruct Hcache as (d' & Hc' & Hsub & Hother).
    exists d'. split_and!; [done..|].
    intros k Hk. apply elem_of_union.
    destruct (decide (k = cache_key (self w) pid)) as [->|Hne].
    + right. by apply elem_of_singleton.
    + left. apply elem_of_dom. rewrite <- (Hother k Hne). by apply elem_of_dom.
Qed.

(** X11. A value cached for a partition id is still what a later call for
    that id returns after any call for any partition id, whatever the outcome
    of that call, and this later call changes nothing. *)
Theorem cached_answer_survives_calls pid pid' w d v r w' :
  _cache (self w) = Some d →
  d !! cache_key (self w) pid' = Some v →
  get_user_group_id_for_partition pid w = (r, w') →
  get_user_group_id_for_partition pid' w' = (Return v, w').
Proof.
  intros Hc Hk Hcall. destruct (service_frame pid w r w' Hcall) as [Hid Hcache].
  rewrite Hc in Hcache. destruct Hcache as (d' & Hc' & Hsub & _).
  assert (d' !! cache_key (self w') pid' = Some v) as Hk'.
  { rewrite (cache_key_same_identity _ _ pid' Hid). by eapply lookup_weaken. }
  destruct (cache_hit_lookup _ _ _ _ Hc' Hk') as [Hhit Hget].
  by rewrite service_hit, Hget.
Qed.

(** X12. With a cache supplied, a call that misses and finds the partition
    invokes the scheme once and caches the answer, be it a group id or
    [None]; the next call for the same id returns that same answer from the
    cache, invokes no scheme and changes nothing. *)
Theorem second_call_answered_from_cache pid w d combined :
  _cache (self w) = Some d →
  cache_hit (self w) (cache_key (self w) pid) = false →
  (course_partitions w).1 = Return combined →
  pid ∈ partition_ids combined →
  ∃ gid w',
    get_user_group_id_for_partition pid w = (Return gid, w') ∧
    length (trace w') = S (length (trace w)) ∧
    get_user_group_id_for_partition pid w' = (Return gid, w').
Proof.
  intros Hc Hmiss (Hres & d0 & ->)%course_partitions_inv Hin.
  destruct (scan_combined_hit _ d0 pid Hin) as (? & p & ? & _ & _ & _ & Hscan).
  rewrite <- (resolution_combined _ _ pid Hres) in Hscan.
  destruct (service_miss_found pid w p Hmiss Hscan) as (msgs & Hcall).
  eexists _, _. split_and!; [exact Hcall| |].
  - simpl. rewrite length_app. simpl. lia.
  - rewrite service_hit.
    + simpl. unfold cache_getitem, dict_getitem. simpl. rewrite Hc. simpl.
      by rewrite lookup_insert_eq.
    + simpl. unfold cache_hit. simpl. rewrite Hc. simpl.
      apply andb_true_intro. split; apply bool_decide_eq_true.
      * intros Hempty. apply (f_equal (λ m, m !! cache_key (self w) pid)) in Hempty.
        by rewrite lookup_insert_eq, lookup_empty in Hempty.
      * rewrite lookup_insert_eq. by eexists.
Qed.


(** ** Which partition a miss resolves to, and what it logs *)

Lemma get_user_partition_world pid w :
  (_get_user_partition pid w).2
  = (_create_enrollment_track_partition (get_course (self w)) w).2.
Proof.
  destruct (create_outcome (get_course (self w)) w) as (w1 & Hc & _).
  unfold _get_user_partition, course_partitions, get_course_user_partitions,
    _get_dynamic_partitions. run. rewrite Hc.
  by destruct (creation_outcome (get_course (self w))).
Qed.

(** The log after a miss is the log after one creation attempt. *)
Lemma service_miss_warnings pid w :
  cache_hit (self w) (cache_key (self w) pid) = false →
  warnings (get_user_group_id_for_partition pid w).2
  = warnings (_create_enrollment_track_partition (get_course (self w)) w).2.
Proof.
  intros Hmiss. rewrite <- (get_user_partition_world pid w).
  destruct (get_user_partition_scan pid w)
    as (w1 & Hup & Hself & Hstore & Htrace & msgs & Hwarn).
  rewrite Hup. simpl.
  destruct (resolution (get_course (self w)) pid) as [[p|]|e'] eqn:Hscan.
  - unfold get_user_group_id_for_partition. run.
    rewrite Hmiss, Hup. unfold get_group.
    destruct (get_group_for_user _ _ _ _ _ _ _) as [g st']. simpl.
    destruct (bool_decide (_cache (self w) ≠ None)); simpl; done.
  - unfold get_user_group_id_for_partition. run. by rewrite Hmiss, Hup.
  - unfold get_user_group_id_for_partition. run. by rewrite Hmiss, Hup.
Qed.

(** X14. On a miss for the reserved id 50, when the scheme is registered and
    no static partition has id 50, the call does not raise: the lookup
    passes over every static partition and resolves to the partition that
    was just synthesized for the course, on which [get_group_for_user] is
    invoked once with [assign=True]; nothing is logged. *)
Theorem reserved_id_resolved_on_synthesized_partition w sch :
  scheme_registry !! "enrollment_track" = Some sch →
  ¬ reserved_id_used (get_course (self w)) →
  cache_hit (self w) (cache_key (self w) 50) = false →
  ∃ w',
    get_user_group_id_for_partition 50 w
    = (Return (Group.id <$>
                 (scheme_answer (self w)
                    (enrollment_track_partition sch (get_course (self w)))
                    true (store w)).1), w') ∧
    trace w'
    = trace w ++ [call_of (self w)
                    (enrollment_track_partition sch (get_course (self w)))
                    true] ∧
    warnings w' = warnings w.
Proof.
  intros Hreg Hfree Hmiss.
  assert (resolution (get_course (self w)) 50
          = Return (Some (enrollment_track_partition sch (get_course (self w)))))
    as Hscan.
  { unfold resolution, combined_result.
    rewrite (creation_fresh _ sch Hreg Hfree).
    rewrite scan_static_miss by exact Hfree. by apply scan_cons_eq. }
  destruct (service_miss_found 50 w _ Hmiss Hscan) as (msgs & Hcall).
  pose proof (service_miss_warnings 50 w Hmiss) as Hlog.
  rewrite Hcall, (create_fresh _ w sch Hreg Hfree) in Hlog.
  eexists. split_and!; [exact Hcall|done|exact Hlog].
Qed.

(** X15. On a miss for an id that static partitions have, whenever the
    combined list of the course is returned, the call is answered by the
    scheme of the first static partition with that id, whether or not the
    enrollment-track scheme is registered and whether or not id 50 is
    taken. *)
Theorem static_id_resolved_by_first_static_partition pid w p combined :
  cache_hit (self w) (cache_key (self w) pid) = false →
  head (filter (λ q, UserPartition.id q = pid)
          (user_partitions (get_course (self w)))) = Some p →
  (course_partitions w).1 = Return combined →
  ∃ w',
    get_user_group_id_for_partition pid w
    = (Return (Group.id <$> (scheme_answer (self w) p true (store w)).1), w') ∧
    trace w' = trace w ++ [call_of (self w) p true].
Proof.
  intros Hmiss Hfirst (Hres & d & ->)%course_partitions_inv.
  fold (first_with_id (user_partitions (get_course (self w))) pid) in Hfirst.
  assert (resolution (get_course (self w)) pid = Return (Some p)) as Hscan.
  { rewrite (resolution_combined _ _ pid Hres). by rewrite scan_prefix, Hfirst. }
  destruct (service_miss_found pid w p Hmiss Hscan) as (msgs & Hcall).
  eexists. split; [exact Hcall|done].
Qed.

(** X16. The combined list is computed anew on every miss.  A call that
    hits the cache logs nothing, and so does a miss on a course where the
    partition is created.  On a course whose enrollment-track partition is
    skipped (scheme not registered, or id 50 taken) a miss logs exactly one
    more warning, whether it then returns or raises, unless the warning
    cannot be formatted: when the scheme is registered and the first static
    partition with id 50 has a name outside ASCII, every miss raises a
    [UnicodeEncodeError] and logs nothing. *)
Theorem miss_logs_skip_warning_again pid w :
  (cache_hit (self w) (cache_key (self w) pid) = true →
   warnings (get_user_group_id_for_partition pid w).2 = warnings w) ∧
  (cache_hit (self w) (cache_key (self w) pid) = false →
   is_Some (scheme_registry !! "enrollment_track") →
   ¬ reserved_id_used (get_course (self w)) →
   warnings (get_user_group_id_for_partition pid w).2 = warnings w) ∧
  (cache_hit (self w) (cache_key (self w) pid) = false →
   scheme_registry !! "enrollment_track" = None
     ∨ reserved_id_used (get_course (self w)) →
   ¬ conflict_unencodable (get_course (self w)) →
   ∃ msg,
     warnings (get_user_group_id_for_partition pid w).2 = warnings w ++ [msg]) ∧
  (cache_hit (self w) (cache_key (self w) pid) = false →
   conflict_unencodable (get_course (self w)) →
   warnings (get_user_group_id_for_partition pid w).2 = warnings w ∧
   ∃ text, (get_user_group_id_for_partition pid w).1
           = Raise (UnicodeEncodeError text)).
Proof.
  split_and!.
  - intros Hhit. by rewrite service_hit.
  - intros Hmiss [sch Hreg] Hfree. rewrite service_miss_warnings by done.
    by rewrite (create_fresh _ w sch Hreg Hfree).
  - intros Hmiss Hskip Hok. rewrite service_miss_warnings by done.
    destruct (scheme_registry !! "enrollment_track") as [sch|] eqn:Hreg.
    + destruct Hskip as [|Hused]; [done|].
      apply reserved_id_used_first in Hused as [p Hp].
      destruct (is_ascii_text (UserPartition.name p)) eqn:Hascii.
      * rewrite (create_clash _ w sch p Hreg Hp Hascii). by eexists.
      * destruct Hok. split; [by rewrite Hreg|]. by exists p.
    + rewrite (create_unregistered _ w Hreg). by eexists.
  - intros Hmiss Hbad. rewrite service_miss_warnings by done.
    destruct Hbad as [[sch Hreg] (p & Hp & Hascii)].
    rewrite (create_clash_unicode _ w sch p Hreg Hp Hascii). split; [done|].
    assert (resolution (get_course (self w)) pid
            = Raise (UnicodeEncodeError (UserPartition.name p))) as Hscan.
    { unfold resolution, combined_result, creation_outcome.
      by rewrite Hreg, Hp, Hascii. }
    destruct (service_miss_broken pid w _ Hmiss Hscan) as (w' & _ & ->).
    by eexists.
Qed.

(** ** The cache key *)

Lemma pretty_N_go_dot_free (x : N) s :
  dot_free s → dot_free (pretty_N_go x s).
Proof.
  revert s. induction (N.lt_wf_0 x) as [x _ IH]; intros s Hs.
  assert (x = 0 ∨ 0 < x)%N as [->|Hpos] by lia.
  - by rewrite pretty_N_go_0.
  - rewrite pretty_N_go_step by done. apply IH.
    + by apply N.div_lt.
    + split; [|done]. unfold pretty_N_char. by repeat case_match.
Qed.

Lemma pretty_N_dot_free (x : N) : dot_free (pretty x).
Proof.
  unfold pretty, pretty_N. case_decide.
  - by split.
  - by apply pretty_N_go_dot_free.
Qed.

Lemma pretty_Z_dot_free (z : Z) : dot_free (pretty z).
Proof.
  destruct z as [|x|x]; unfold pretty, pretty_Z.
  - by split.
  - apply pretty_N_dot_free.
  - split; [done|]. apply pretty_N_dot_free.
Qed.

Lemma dot_not_free s t : ¬ dot_free (s +:+ String "."%char t).
Proof. induction s as [|c s IH]; simpl; [by intros [[] _]|]. by intros [_ ?]. Qed.

(** Two strings cut at their first separator have the same parts. *)
Lemma split_at_first_dot a b r1 r2 :
  dot_free a → dot_free b →
  a +:+ String "."%char r1 = b +:+ String "."%char r2 → a = b ∧ r1 = r2.
Proof.
  revert b. induction a as [|c a IH]; intros [|c' b]; simpl.
  - by intros _ _ [= ->].
  - intros _ [Hc _] [= <- _]. by destruct Hc.
  - intros [Hc _] _ [= -> _]. by destruct Hc.
  - intros [_ Ha] [_ Hb] [= -> Heq].
    destruct (IH b Ha Hb Heq) as [-> ->]. done.
Qed.

(** Two strings cut at their last separator have the same parts. *)
Lemma split_at_last_dot c1 c2 a b :
  dot_free a → dot_free b →
  c1 +:+ String "."%char a = c2 +:+ String "."%char b → c1 = c2 ∧ a = b.
Proof.
  intros Ha Hb. revert c2. induction c1 as [|x c1 IH]; intros [|y c2]; simpl.
  - by intros [= ->].
  - intros [= <- ->]. by destruct (dot_not_free c2 b).
  - intros [= -> <-]. by destruct (dot_not_free c1 a).
  - intros [= -> Heq]. destruct (IH c2 Heq) as [-> ->]. done.
Qed.

(** X9. The cache key determines the user id, the text of the course id and
    the partition id it was derived from: two services, or two partition
    ids, that differ in one of the three never share a cache key. *)
Theorem cache_key_determines_its_parts (s s' : PartitionService) pid pid' :
  cache_key s pid = cache_key s' pid' →
  User.id (_user s) = User.id (_user s') ∧
  unicode (_course_id s) = unicode (_course_id s') ∧
  pid = pid'.
Proof.
  unfold cache_key. intros Hk.
  apply (inj (String.append _)) in Hk.
  apply split_at_first_dot in Hk as [Hu Hrest]; [|apply pretty_Z_dot_free..].
  apply split_at_last_dot in Hrest as [Hc Hp]; [|apply pretty_Z_dot_free..].
  apply (inj pretty) in Hu. apply (inj pretty) in Hp. done.
Qed.

End further_properties.

(** * The further properties on the concrete runtime *)

Lemma sample_equipes_unencodable : conflict_unencodable Sample.course_equipes.
Proof.
  split; [by exists Sample.EnrollmentTrackScheme|].
  by exists Sample.equipes.
Qed.

Lemma clash_warning_names_first_conflict_witness :
  @scheme_registry Sample.full !! "enrollment_track"
    = Some Sample.EnrollmentTrackScheme ∧
  head (filter (λ q, UserPartition.id q = 50)
          (user_partitions Sample.course_clash)) = Some Sample.squatter ∧
  is_ascii_text (UserPartition.name Sample.squatter) = true ∧
  warnings (_create_enrollment_track_partition Sample.course_clash
              Sample.w_none).2
  = ["Cannot add 'enrollment_track' partition, as ID 50 is assigned to Cohorts"].
Proof.
  split; [reflexivity|]. split; [reflexivity|]. split; [reflexivity|].
  by rewrite (clash_warning_names_first_conflict Sample.course_clash
                Sample.w_none Sample.EnrollmentTrackScheme Sample.squatter
                eq_refl eq_refl eq_refl).
Defined.

Lemma cache_key_determines_its_parts_witness :
  cache_key (self Sample.w_other) 1 = cache_key (self Sample.w_empty) 1 ∧
  User.id (_user (self Sample.w_other)) = User.id (_user (self Sample.w_empty)) ∧
  unicode (_course_id (self Sample.w_other))
    = unicode (_course_id (self Sample.w_empty)) ∧
  1 = 1.
Proof.
  split; [reflexivity|].
  exact (cache_key_determines_its_parts (self Sample.w_other)
           (self Sample.w_empty) 1 1 eq_refl).
Defined.

Lemma call_keeps_service_and_cache_entries_witness :
  get_user_group_id_for_partition 1 Sample.w_other
    = ((get_user_group_id_for_partition 1 Sample.w_other).1,
       (get_user_group_id_for_partition 1 Sample.w_other).2) ∧
  same_identity (self Sample.w_other)
    (self (get_user_group_id_for_partition 1 Sample.w_other).2) ∧
  ∃ d', _cache (self (get_user_group_id_for_partition 1 Sample.w_other).2)
        = Some d' ∧
    ({[ "unrelated" := None ]} : gmap string (option Z)) ⊆ d' ∧
    dom d' ⊆ dom ({[ "unrelated" := None ]} : gmap string (option Z))
             ∪ {[ cache_key (self Sample.w_other) 1 ]}.
Proof.
  split; [reflexivity|].
  destruct (call_keeps_service_and_cache_entries 1 Sample.w_other _ _ eq_refl)
    as (Hid & _ & Hcache).
  split; [exact Hid|]. exact (Hcache _ eq_refl).
Defined.

Lemma cached_answer_survives_calls_witness :
  _cache (self Sample.w_cached) = Some {[ Sample.key9 := Some 11 ]} ∧
  ({[ Sample.key9 := Some 11 ]} : gmap string (option Z))
    !! cache_key (self Sample.w_cached) 9 = Some (Some 11) ∧
  (get_user_group_id_for_partition 1 Sample.w_cached).1 = Return (Some 10) ∧
  get_user_group_id_for_partition 9
    (get_user_group_id_for_partition 1 Sample.w_cached).2
  = (Return (Some 11), (get_user_group_id_for_partition 1 Sample.w_cached).2).
Proof.
  split; [reflexivity|]. split; [reflexivity|]. split; [reflexivity|].
  exact (cached_answer_survives_calls 1 9 Sample.w_cached
           {[ Sample.key9 := Some 11 ]} (Some 11) _ _ eq_refl eq_refl eq_refl).
Defined.

Lemma second_call_answered_from_cache_witness :
  _cache (self Sample.w_other) = Some {[ "unrelated" := None ]} ∧
  cache_hit (self Sample.w_other) (cache_key (self Sample.w_other) 1) = false ∧
  (course_partitions Sample.w_other).1 = Return Sample.combined_plain ∧
  1 ∈ partition_ids Sample.combined_plain ∧
  ∃ gid w',
    get_user_group_id_for_partition 1 Sample.w_other = (Return gid, w') ∧
    length (trace w') = 1%nat ∧
    get_user_group_id_for_partition 1 w' = (Return gid, w').
Proof.
  split; [reflexivity|]. split; [reflexivity|]. split; [reflexivity|].
  split; [exact sample_plain_holds_1|].
  exact (second_call_answered_from_cache 1 Sample.w_other _ _ eq_refl eq_refl
           (sample_plain_combined Sample.w_other eq_refl)
           sample_plain_holds_1).
Defined.


Lemma reserved_id_resolved_on_synthesized_partition_witness :
  @scheme_registry Sample.full !! "enrollment_track"
    = Some Sample.EnrollmentTrackScheme ∧
  ¬ reserved_id_used (get_course (self Sample.w_none)) ∧
  cache_hit (self Sample.w_none) (cache_key (self Sample.w_none) 50) = false ∧
  ∃ w',
    get_user_group_id_for_partition 50 Sample.w_none = (Return None, w') ∧
    trace w' = [call_of (self Sample.w_none) Sample.track_partition true] ∧
    warnings w' = [].
Proof.
  split; [reflexivity|]. split; [exact sample_plain_free|].
  split; [reflexivity|].
  exact (reserved_id_resolved_on_synthesized_partition Sample.w_none
           Sample.EnrollmentTrackScheme eq_refl sample_plain_free eq_refl).
Defined.

Lemma static_id_resolved_by_first_static_partition_witness :
  cache_hit (self Sample.w_bare) (cache_key (self Sample.w_bare) 1) = false ∧
  head (filter (λ q, UserPartition.id q = 1)
          (user_partitions (get_course (self Sample.w_bare))))
    = Some Sample.ab_test ∧
  (course_partitions Sample.w_bare).1 = Return Sample.combined_bare ∧
  ∃ w',
    get_user_group_id_for_partition 1 Sample.w_bare = (Return (Some 10), w') ∧
    trace w' = [call_of (self Sample.w_bare) Sample.ab_test true].
Proof.
  split; [reflexivity|]. split; [reflexivity|]. split; [reflexivity|].
  exact (static_id_resolved_by_first_static_partition 1 Sample.w_bare
           Sample.ab_test Sample.combined_bare eq_refl eq_refl eq_refl).
Defined.

Lemma miss_logs_skip_warning_again_witness :
  cache_hit (self Sample.w_bare) (cache_key (self Sample.w_bare) 1) = false ∧
  @scheme_registry Sample.bare !! "enrollment_track" = None ∧
  (get_user_group_id_for_partition 1 Sample.w_bare).1 = Return (Some 10) ∧
  (∃ msg,
     warnings (get_user_group_id_for_partition 1 Sample.w_bare).2 = [msg]) ∧
  cache_hit (self Sample.w_equipes) (cache_key (self Sample.w_equipes) 1)
    = false ∧
  conflict_unencodable (get_course (self Sample.w_equipes)) ∧
  warnings (get_user_group_id_for_partition 1 Sample.w_equipes).2 = [] ∧
  ∃ text, (get_user_group_id_for_partition 1 Sample.w_equipes).1
          = Raise (UnicodeEncodeError text).
Proof.
  split; [reflexivity|]. split; [reflexivity|]. split; [reflexivity|].
  split.
  - exact (proj1 (proj2 (proj2 (miss_logs_skip_warning_again 1 Sample.w_bare)))
             eq_refl (or_introl eq_refl) (sample_bare_encodable _)).
  - split; [reflexivity|]. split; [exact sample_equipes_unencodable|].
    exact (proj2 (proj2 (proj2 (miss_logs_skip_warning_again 1 Sample.w_equipes)))
             eq_refl sample_equipes_unencodable).
Defined.
